(** * BizAssist chat store: the streaming session engine

  A shallow embedding of [frontend/src/store/chatStore.ts] (the zustand
  store behind the chat window) and of the record types it uses from
  [frontend/src/types/index.ts].

  The asynchronous functions of the store are cut at their [await]s:
  every piece between two suspension points is one function on the
  store, so that other actions can be interleaved exactly where the
  JavaScript event loop allows it.  What the network answers is an
  input of the piece that resumes. *)

From Stdlib Require Import String Ascii List ZArith Bool Lia Sorted DecimalString.
Import ListNotations.
Open Scope string_scope.

Set Implicit Arguments.
Set Warnings "-register-all".

(** ** JavaScript values and string primitives *)

Module JS.

(** What [JSON.parse] can return, plus [undefined] for the value of a
    property that is not there.  A number carries the text [String(n)]
    gives for it (the shortest round-trip rendering), which is all the
    store ever does with a number: print it, test it for zero, compare
    it. *)
Inductive JValue : Type :=
| JUndefined
| JNull
| JBool (b : bool)
| JNum (shown : string)
| JStr (s : string)
| JArr (items : list JValue)
| JObj (fields : list (string * JValue)).

Fixpoint lookup (k : string) (fs : list (string * JValue)) : JValue :=
  match fs with
  | [] => JUndefined
  | (k', v) :: rest => if String.eqb k k' then v else lookup k rest
  end.

(** [v.k] for [v] not null or undefined, and [k] one of the property
    names the store reads ([type], [content], [name], [tool],
    [citations], [chat_id], [title]): none of them exists on a
    primitive, an array or [Object.prototype]. *)
Definition field (k : string) (v : JValue) : JValue :=
  match v with
  | JObj fs => lookup k fs
  | _ => JUndefined
  end.

(** [a ?? b] *)
Definition nullish (a b : JValue) : JValue :=
  match a with
  | JUndefined | JNull => b
  | _ => a
  end.

(** ToBoolean *)
Definition truthy (v : JValue) : bool :=
  match v with
  | JUndefined | JNull => false
  | JBool b => b
  | JNum shown => negb (String.eqb shown "0")
  | JStr s => negb (String.eqb s "")
  | JArr _ | JObj _ => true
  end.

(** [String(v)], which is also what [s + v] appends to a string [s].
    Plain objects print as their tag (an object that came with a
    [toString] or [valueOf] property of its own is outside the model);
    arrays join their elements with commas, null and undefined elements
    printing as nothing. *)
Fixpoint toString (v : JValue) : string :=
  match v with
  | JUndefined => "undefined"
  | JNull => "null"
  | JBool true => "true"
  | JBool false => "false"
  | JNum shown => shown
  | JStr s => s
  | JArr items =>
      let elem x :=
        match x with
        | JUndefined | JNull => ""
        | _ => toString x
        end in
      (fix join (l : list JValue) : string :=
         match l with
         | [] => ""
         | [x] => elem x
         | x :: rest => elem x ++ "," ++ join rest
         end) items
  | JObj _ => "[object Object]"
  end.

(** [a === b] for values of which at least one was produced by an
    earlier [JSON.parse] call than the other: primitives compare by
    value, two objects or arrays are never the same reference. *)
Definition strictEq (a b : JValue) : bool :=
  match a, b with
  | JUndefined, JUndefined => true
  | JNull, JNull => true
  | JBool x, JBool y => Bool.eqb x y
  | JNum x, JNum y => String.eqb x y
  | JStr x, JStr y => String.eqb x y
  | _, _ => false
  end.

(** [Array.isArray(v) ? v.map(String) : undefined] *)
Definition stringArray (v : JValue) : option (list string) :=
  match v with
  | JArr items => Some (map toString items)
  | _ => None
  end.

(** Text is modelled as [string], one character per code unit below
    256; the white space of [trim] and of the regular expression class
    [\s] is then tab, line feed, vertical tab, form feed, carriage
    return, space and no-break space. *)
Definition isSpace (c : ascii) : bool :=
  match nat_of_ascii c with
  | 9 | 10 | 11 | 12 | 13 | 32 | 160 => true
  | _ => false
  end.

Fixpoint trimStart (s : string) : string :=
  match s with
  | EmptyString => EmptyString
  | String c r => if isSpace c then trimStart r else s
  end.

Fixpoint trimEnd (s : string) : string :=
  match s with
  | EmptyString => EmptyString
  | String c r =>
      match trimEnd r with
      | EmptyString => if isSpace c then EmptyString else String c EmptyString
      | r' => String c r'
      end
  end.

(** [s.trim()] *)
Definition trim (s : string) : string := trimEnd (trimStart s).

(** [s.startsWith(p)] *)
Definition startsWith (p s : string) : bool := String.prefix p s.

Fixpoint drop (n : nat) (s : string) : string :=
  match n, s with
  | O, _ => s
  | S n', String _ r => drop n' r
  | S _, EmptyString => EmptyString
  end.

Definition newline : ascii := "010"%char.

(** [s.split('\n')]: never empty, the last element is what follows the
    last line feed. *)
Fixpoint splitLines (s : string) : list string :=
  match s with
  | EmptyString => [EmptyString]
  | String c r =>
      if Ascii.eqb c newline then EmptyString :: splitLines r
      else match splitLines r with
           | [] => [String c EmptyString]
           | h :: t => String c h :: t
           end
  end.

(** The concatenation of texts, in order. *)
Definition joinAll (texts : list string) : string :=
  fold_right String.append EmptyString texts.

(** [n.toString()] for an integral number. *)
Definition showZ (z : Z) : string := NilZero.string_of_int (Z.to_int z).

End JS.
Import JS.

(** ** The records of [types/index.ts] *)

Inductive Role : Type := user | assistant.

Inductive ToolStatus : Type := started | completed | failed.

Module Attachment.
Record t : Type := mk
  { id : string;
    filename : string;
    content_type : string;
    size : Z;
    url : string;
    local_url : option string }.
End Attachment.

(** [name] is declared a string, but the dispatcher stores the parsed
    [name] (or [tool]) property as it came, so it is kept as a value. *)
Module ToolCall.
Record t : Type := mk
  { name : JValue;
    status : ToolStatus;
    citations : option (list string) }.

(** [{ ...t, status: st }] *)
Definition withStatus (st : ToolStatus) (tc : t) : t :=
  mk (name tc) st (citations tc).

(** [{ ...t, ...{ citations: c } }] *)
Definition withCitations (c : option (list string)) (tc : t) : t :=
  mk (name tc) (status tc) c.
End ToolCall.

Module Message.
Record t : Type := mk
  { id : string;
    role : Role;
    content : string;
    tool_calls : option (list ToolCall.t);
    attachments : option (list Attachment.t);
    created_at : string }.

(** [{ ...m, tool_calls: tcs }] *)
Definition withToolCalls (tcs : option (list ToolCall.t)) (m : t) : t :=
  mk (id m) (role m) (content m) tcs (attachments m) (created_at m).
End Message.

(** [title] is kept as a value for the same reason as a tool's name:
    [title_update] stores the parsed [title] unconverted. *)
Module Chat.
Record t : Type := mk
  { id : string;
    title : JValue;
    created_at : string;
    updated_at : string }.

(** [{ ...c, title: v }] *)
Definition withTitle (v : JValue) (c : t) : t :=
  mk (id c) v (created_at c) (updated_at c).
End Chat.

(** ** The store: [ChatState] and the partial updates of [set] *)

Module Store.

Record ChatState : Type := mkState
  { chats : list Chat.t;
    activeChatId : option string;
    messages : list Message.t;
    isLoading : bool;
    streamingMessage : string;
    activeTools : list ToolCall.t;
    hasMoreMessages : bool;
    isLoadingMore : bool }.

(** The initial value of the store ([create<ChatState>]). *)
Definition initial : ChatState :=
  {| chats := []; activeChatId := None; messages := []; isLoading := false;
     streamingMessage := ""; activeTools := []; hasMoreMessages := true;
     isLoadingMore := false |}.

Definition set_chats (v : list Chat.t) (s : ChatState) : ChatState :=
  mkState v (activeChatId s) (messages s) (isLoading s) (streamingMessage s)
          (activeTools s) (hasMoreMessages s) (isLoadingMore s).

Definition set_activeChatId (v : option string) (s : ChatState) : ChatState :=
  mkState (chats s) v (messages s) (isLoading s) (streamingMessage s)
          (activeTools s) (hasMoreMessages s) (isLoadingMore s).

Definition set_messages (v : list Message.t) (s : ChatState) : ChatState :=
  mkState (chats s) (activeChatId s) v (isLoading s) (streamingMessage s)
          (activeTools s) (hasMoreMessages s) (isLoadingMore s).

Definition set_isLoading (v : bool) (s : ChatState) : ChatState :=
  mkState (chats s) (activeChatId s) (messages s) v (streamingMessage s)
          (activeTools s) (hasMoreMessages s) (isLoadingMore s).

Definition set_streamingMessage (v : string) (s : ChatState) : ChatState :=
  mkState (chats s) (activeChatId s) (messages s) (isLoading s) v
          (activeTools s) (hasMoreMessages s) (isLoadingMore s).

Definition set_activeTools (v : list ToolCall.t) (s : ChatState) : ChatState :=
  mkState (chats s) (activeChatId s) (messages s) (isLoading s)
          (streamingMessage s) v (hasMoreMessages s) (isLoadingMore s).

Definition set_hasMoreMessages (v : bool) (s : ChatState) : ChatState :=
  mkState (chats s) (activeChatId s) (messages s) (isLoading s)
          (streamingMessage s) (activeTools s) v (isLoadingMore s).

Definition set_isLoadingMore (v : bool) (s : ChatState) : ChatState :=
  mkState (chats s) (activeChatId s) (messages s) (isLoading s)
          (streamingMessage s) (activeTools s) (hasMoreMessages s) v.

(** [a || b] on strings *)
Definition orElse (a b : string) : string :=
  if String.eqb a "" then b else a.

(** Truthiness of [activeChatId]: neither null nor the empty string. *)
Definition chatIdOf (o : option string) : option string :=
  match o with
  | Some c => if String.eqb c "" then None else Some c
  | None => None
  end.

(** [clearStreaming] *)
Definition clearStreaming (s : ChatState) : ChatState :=
  set_activeTools [] (set_streamingMessage "" s).

(** What a messages endpoint answered, after [data.messages ?? data] and
    [data.has_more]: the page and the server's flag when it sent one. *)
Record Page : Type := mkPage
  { page_messages : list Message.t;
    has_more : option bool }.

(** [data.has_more ?? msgs.length >= 10] *)
Definition hasMoreOf (p : Page) : bool :=
  match has_more p with
  | Some b => b
  | None => (10 <=? length (page_messages p))%nat
  end.

(** The [seen] filter of [setActiveChat] and of the refresh after a turn:
    the first message of every id is kept. *)
Fixpoint firstOfEachId (seen : list string) (ms : list Message.t)
  : list Message.t :=
  match ms with
  | [] => []
  | m :: rest =>
      if existsb (String.eqb (Message.id m)) seen
      then firstOfEachId seen rest
      else m :: firstOfEachId (Message.id m :: seen) rest
  end.

(** The [map] after the filter: every tool call is rebuilt with its name
    printed ([String(tc?.name ?? '')]); a message without tool calls gets
    the empty list.  Status and citations are taken at their declared
    types, on which [|| 'completed'] and [map(String)] change nothing. *)
Definition normalizeTool (tc : ToolCall.t) : ToolCall.t :=
  ToolCall.mk (JStr (toString (nullish (ToolCall.name tc) (JStr ""))))
              (ToolCall.status tc) (ToolCall.citations tc).

Definition normalizeMessage (m : Message.t) : Message.t :=
  Message.withToolCalls
    (Some (map normalizeTool
               (match Message.tool_calls m with Some l => l | None => [] end)))
    m.

Definition uniqueMessages (p : Page) : list Message.t :=
  map normalizeMessage (firstOfEachId [] (page_messages p)).

(** A [fetch] of a messages endpoint: it throws (or the body does not
    read as JSON), it answers with a status that is not ok, or it answers
    a page. *)
Inductive Fetched : Type :=
| Threw
| NotOk
| Ok (p : Page).

(** [setActiveChat], up to its [fetch]. *)
Definition setActiveChat_begin (id : string) (s : ChatState) : ChatState :=
  set_hasMoreMessages true
    (set_activeTools []
       (set_streamingMessage ""
          (set_messages [] (set_activeChatId (Some id) s)))).

(** [setActiveChat], from the answer of its [fetch] on. *)
Definition setActiveChat_resume (r : Fetched) (s : ChatState) : ChatState :=
  match r with
  | Ok p => set_hasMoreMessages (hasMoreOf p) (set_messages (uniqueMessages p) s)
  | NotOk | Threw => s
  end.

(** [createChat], from the answer of its [post] on. *)
Definition createChat_resume (newChat : Chat.t) (s : ChatState) : ChatState :=
  set_activeChatId (Some (Chat.id newChat)) (set_chats (newChat :: chats s) s).

End Store.
Import Store.

(** ** [sendMessage]: one turn *)

Module Turn.

(** The local variables of [sendMessage] that live across the stream. *)
Record Locals : Type := mkLocals
  { buffer : string;
    hasReceivedFirstToken : bool;
    pendingToolMeta : list (string * option (list string)) }.

Definition set_buffer (v : string) (l : Locals) : Locals :=
  mkLocals v (hasReceivedFirstToken l) (pendingToolMeta l).

Definition set_hasReceivedFirstToken (v : bool) (l : Locals) : Locals :=
  mkLocals (buffer l) v (pendingToolMeta l).

(** [pendingToolMeta[k] = { citations: c }] *)
Definition putMeta (k : string) (c : option (list string)) (l : Locals)
  : Locals :=
  mkLocals (buffer l) (hasReceivedFirstToken l) ((k, c) :: pendingToolMeta l).

(** [pendingToolMeta[k]]: [None] when nothing was stored under [k]. *)
Fixpoint getMeta (k : string) (m : list (string * option (list string)))
  : option (option (list string)) :=
  match m with
  | [] => None
  | (k', c) :: rest => if String.eqb k k' then Some c else getMeta k rest
  end.

(** The values of the locals when the reader has just been obtained. *)
Definition fresh : Locals :=
  {| buffer := ""; hasReceivedFirstToken := false; pendingToolMeta := [] |}.

(** How one iteration of the [for] over the lines ends. *)
Inductive Ctl : Type := Continue | Break.

Definition Outcome : Type := (Ctl * Locals * ChatState)%type.

(** [line.replace(/^data:\s?/, '')] on a line that starts with [data:] *)
Definition payload (line : string) : string :=
  match drop 5 line with
  | String c r => if isSpace c then r else String c r
  | EmptyString => EmptyString
  end.

(** [parsed.name ?? parsed.tool] *)
Definition toolNameOf (parsed : JValue) : JValue :=
  nullish (field "name" parsed) (field "tool" parsed).

(** The first-token bookkeeping shared by the [token] branch and the
    [catch] block. *)
Definition markFirstToken (l : Locals) (s : ChatState) : Locals * ChatState :=
  if hasReceivedFirstToken l then (l, s)
  else (set_hasReceivedFirstToken true l, set_isLoading false s).

(** The [catch] block: the payload is appended as it is. *)
Definition onCatch (data : string) (l : Locals) (s : ChatState) : Outcome :=
  let '(l1, s1) := markFirstToken l s in
  (Continue, l1, set_streamingMessage (streamingMessage s1 ++ data) s1).

Definition onToken (parsed : JValue) (l : Locals) (s : ChatState) : Outcome :=
  let '(l1, s1) := markFirstToken l s in
  (Continue, l1,
   set_streamingMessage
     (streamingMessage s1
        ++ toString (nullish (field "content" parsed) (JStr ""))) s1).

Definition onToolStart (parsed : JValue) (l : Locals) (s : ChatState)
  : Outcome :=
  let toolName := toolNameOf parsed in
  if truthy toolName then
    let meta :=
      match getMeta (toString toolName) (pendingToolMeta l) with
      | Some c => c
      | None => None
      end in
    (Continue, l,
     set_activeTools (activeTools s ++ [ToolCall.mk toolName started meta]) s)
  else (Continue, l, s).

Definition onToolEnd (parsed : JValue) (l : Locals) (s : ChatState)
  : Outcome :=
  let toolName := toolNameOf parsed in
  if truthy toolName then
    (Continue, l,
     set_activeTools
       (map (fun t => if strictEq (ToolCall.name t) toolName
                      then ToolCall.withStatus completed t else t)
            (activeTools s)) s)
  else (Continue, l, s).

Definition onSource (parsed : JValue) (l : Locals) (s : ChatState) : Outcome :=
  let toolName := nullish (toolNameOf parsed) (JStr "Source") in
  let c := stringArray (field "citations" parsed) in
  (Continue, putMeta (toString toolName) c l,
   set_activeTools
     (map (fun t => if strictEq (ToolCall.name t) toolName
                    then ToolCall.withCitations c t else t)
          (activeTools s)) s).

Definition onTitleUpdate (parsed : JValue) (l : Locals) (s : ChatState)
  : Outcome :=
  let chatId := field "chat_id" parsed in
  let newTitle := field "title" parsed in
  if truthy chatId && truthy newTitle then
    (Continue, l,
     set_chats
       (map (fun c => if strictEq (JStr (Chat.id c)) chatId
                      then Chat.withTitle newTitle c else c)
            (chats s)) s)
  else (Continue, l, s).

Definition onError (parsed : JValue) (l : Locals) (s : ChatState) : Outcome :=
  let s1 := if hasReceivedFirstToken l then s else set_isLoading false s in
  let errorText :=
    if truthy (field "content" parsed) then toString (field "content" parsed)
    else "Something went wrong." in
  (Break, set_buffer "" l,
   set_streamingMessage (orElse (streamingMessage s1) errorText) s1).

(** The chain of [if (parsed.type === ...)] on a parsed payload that is
    not null. *)
Definition dispatch (parsed : JValue) (l : Locals) (s : ChatState) : Outcome :=
  let type := field "type" parsed in
  if strictEq type (JStr "token") then onToken parsed l s
  else if strictEq type (JStr "tool_start") then onToolStart parsed l s
  else if strictEq type (JStr "tool_end") then onToolEnd parsed l s
  else if strictEq type (JStr "source") then onSource parsed l s
  else if strictEq type (JStr "title_update") then onTitleUpdate parsed l s
  else if strictEq type (JStr "error") then onError parsed l s
  else if strictEq type (JStr "done") then (Break, set_buffer "" l, s)
  else (Continue, l, s).

Section Stream.

(** [JSON.parse]: [None] when it throws. *)
Variable JSON_parse : string -> option JValue.

(** The [try] block on a payload: [JSON.parse] throws on text that is
    not JSON, and reading [parsed.type] throws on [null]; both end in the
    [catch] block before anything was written. *)
Definition onPayload (data : string) (l : Locals) (s : ChatState) : Outcome :=
  match JSON_parse data with
  | None => onCatch data l s
  | Some JNull | Some JUndefined => onCatch data l s
  | Some parsed => dispatch parsed l s
  end.

(** The body of [for (const rawLine of lines)]. *)
Definition processLine (rawLine : string) (l : Locals) (s : ChatState)
  : Outcome :=
  let line := trim rawLine in
  if negb (startsWith "data:" line) then (Continue, l, s)
  else
    let data := payload line in
    if String.eqb data "" then (Continue, l, s)
    else if String.eqb data "[DONE]" then (Break, set_buffer "" l, s)
    else onPayload data l s.

(** [for (const rawLine of lines) { ... }]: a [break] leaves this loop. *)
Fixpoint forLines (lines : list string) (l : Locals) (s : ChatState)
  : Locals * ChatState :=
  match lines with
  | [] => (l, s)
  | rawLine :: rest =>
      match processLine rawLine l s with
      | (Break, l1, s1) => (l1, s1)
      | (Continue, l1, s1) => forLines rest l1 s1
      end
  end.

(** One iteration of [while (true)] on a chunk that [reader.read()]
    delivered, already decoded to text. *)
Definition onChunk (value : string) (l : Locals) (s : ChatState)
  : Locals * ChatState :=
  let lines := splitLines (buffer l ++ value) in
  forLines (removelast lines) (set_buffer (last lines "") l) s.

(** [while (true)] over the chunks of a stream that then reports
    [done], when nothing else touches the store in between. *)
Fixpoint readLoop (chunks : list string) (l : Locals) (s : ChatState)
  : Locals * ChatState :=
  match chunks with
  | [] => (l, s)
  | value :: more =>
      let '(l1, s1) := onChunk value l s in readLoop more l1 s1
  end.

End Stream.

(** A file picked for upload: [{ file: File; preview?: string }]. *)
Record Upload : Type := mkUpload
  { file_name : string;
    file_type : string;
    file_size : Z;
    preview : option string }.

(** The clock readings of the first part of [sendMessage]: one
    [Date.now()] per attachment, one for the user message, and the text
    of [new Date().toISOString()]. *)
Record Clock : Type := mkClock
  { nowAt : nat -> Z;
    now : Z;
    iso : string }.

Fixpoint optimisticAtts (k : Clock) (idx : nat) (atts : list Upload)
  : list Attachment.t :=
  match atts with
  | [] => []
  | a :: rest =>
      Attachment.mk
        ("local-" ++ showZ (nowAt k idx) ++ "-" ++ showZ (Z.of_nat idx))
        (file_name a) (orElse (file_type a) "application/octet-stream")
        (file_size a) "" (preview a)
      :: optimisticAtts k (S idx) rest
  end.

(** [sendMessage] from the moment the chat id is known up to the
    [fetch]: the transient state is reset and the user's message is
    appended. *)
Definition sendMessage_open (content : string) (atts : list Upload)
  (k : Clock) (s : ChatState) : ChatState :=
  let s1 := set_activeTools [] (set_streamingMessage "" (set_isLoading true s)) in
  let oa := optimisticAtts k 0 atts in
  let userMsg :=
    Message.mk (showZ (now k)) user content None
               (match oa with [] => None | _ => Some oa end) (iso k) in
  set_messages (messages s1 ++ [userMsg]) s1.

(** The outer [catch]: [msg] is the message of what was thrown. *)
Definition sendMessage_catch (msg : string) (s : ChatState) : ChatState :=
  set_streamingMessage (orElse (streamingMessage s) msg)
                       (set_isLoading false s).

(** What the [fetch] of the message endpoint led to: it threw
    ([error.message], or nothing when what was thrown is no [Error]), it
    answered 401, it answered another status that is not ok (with the
    value of [errText] after the body was looked at), it answered without
    a body, or it answered a stream. *)
Inductive Answer : Type :=
| FetchThrew (msg : option string)
| Unauthorized
| Refused (errText : string)
| NoBody
| Stream.

(** [sendMessage] from the answer of the [fetch] to the first
    [reader.read()]; [None] when the function is over. *)
Definition sendMessage_answer (a : Answer) (s : ChatState)
  : ChatState * option Locals :=
  match a with
  | FetchThrew (Some msg) => (sendMessage_catch msg s, None)
  | FetchThrew None => (sendMessage_catch "Something went wrong." s, None)
  | Unauthorized => (sendMessage_catch "Unauthorized" s, None)
  | Refused errText =>
      let s1 := set_streamingMessage (orElse errText "Request failed.")
                                     (set_isLoading false s) in
      (sendMessage_catch (orElse errText "Stream failed") s1, None)
  | NoBody => (set_isLoading false s, None)
  | Stream => (s, Some fresh)
  end.

(** [sendMessage] after the [while]: the assistant message is built from
    the streamed text and tools and appended; the chat to refresh is the
    one active now. *)
Definition sendMessage_finish (k : Clock) (s : ChatState)
  : ChatState * option string :=
  let s1 := set_isLoading false s in
  let finalChatId := activeChatId s1 in
  let finalText := streamingMessage s1 in
  let aiMsg :=
    Message.mk (showZ (now k + 1)) assistant finalText
               (Some (activeTools s1)) None (iso k) in
  (set_activeTools []
     (set_streamingMessage "" (set_messages (messages s1 ++ [aiMsg]) s1)),
   chatIdOf finalChatId).

(** The background refresh, from the answer of its [fetch] on. *)
Definition refresh_resume (r : Fetched) (s : ChatState) : ChatState :=
  match r with
  | Ok p => set_hasMoreMessages (hasMoreOf p) (set_messages (uniqueMessages p) s)
  | NotOk | Threw => s
  end.

End Turn.
Import Turn.

(** ** [loadMoreMessages]: backward pagination *)

Module Loader.

(** The [GET] of [/chat/{chat}/messages{query}]. *)
Record Request : Type := mkRequest
  { chat : string;
    query : string }.

Section Begin.

(** [encodeURIComponent] *)
Variable encodeURIComponent : string -> string.

(** The query string: [oldestMsg?.id ? `?before=...&limit=10` : `?limit=10`]
    with [oldestMsg = messages[0]]. *)
Definition queryOf (window : list Message.t) : string :=
  match window with
  | oldestMsg :: _ =>
      if String.eqb (Message.id oldestMsg) "" then "?limit=10"
      else "?before=" ++ encodeURIComponent (Message.id oldestMsg) ++ "&limit=10"
  | [] => "?limit=10"
  end.

(** [loadMoreMessages] up to its [fetch]; [None] when it returned at the
    guard, without a request. *)
Definition loadMoreMessages_begin (s : ChatState)
  : ChatState * option Request :=
  match chatIdOf (activeChatId s) with
  | None => (s, None)
  | Some c =>
      if negb (hasMoreMessages s) || isLoadingMore s then (s, None)
      else (set_isLoadingMore true s, Some (mkRequest c (queryOf (messages s))))
  end.

End Begin.

(** [existingIds.has(id)] for [existingIds = new Set(window.map(m => m.id))] *)
Definition hasId (window : list Message.t) (i : string) : bool :=
  existsb (fun m => String.eqb (Message.id m) i) window.

(** [olderMessages.filter(m => !existingIds.has(m.id))] *)
Definition newOnes (window olderMessages : list Message.t) : list Message.t :=
  filter (fun m => negb (hasId window (Message.id m))) olderMessages.

(** [loadMoreMessages] from the answer of its [fetch] on. *)
Definition loadMoreMessages_resume (r : Fetched) (s : ChatState) : ChatState :=
  match r with
  | Ok p =>
      let olderMessages := page_messages p in
      let hasMore := hasMoreOf p in
      match olderMessages with
      | [] => set_isLoadingMore false (set_hasMoreMessages false s)
      | _ =>
          set_isLoadingMore false
            (set_hasMoreMessages hasMore
               (set_messages (newOnes (messages s) olderMessages ++ messages s) s))
      end
  | NotOk | Threw => set_isLoadingMore false s
  end.


Section Chronology.

(** The instant a [created_at] text stands for. *)
Variable instant : string -> Z.



End Chronology.

End Loader.
Import Loader.

(** ** The store together with what is in flight

    Between two [await]s a store function runs alone; at an [await] any
    other one may run.  A session is the store plus the continuations
    that wait for the network: the message posts, the streams being
    read (with their locals), the refreshes, the page requests and the
    initial fetches of [setActiveChat].  A label is one atomic piece;
    [exec] runs it, and is [None] when the piece cannot happen (an answer
    to a request that was never made). *)

Module Session.

Record t : Type := mk
  { store : ChatState;
    posting : nat;
    turns : list Locals;
    refreshing : list string;
    loading : list Request;
    switching : list string }.

Definition with_store (s : ChatState) (x : t) : t :=
  mk s (posting x) (turns x) (refreshing x) (loading x) (switching x).

(** A session whose store is [s] and where nothing is in flight. *)
Definition quiet (s : ChatState) : t := mk s 0 [] [] [] [].

Inductive Label : Type :=
| LoadMore
| LoadMoreAnswer (i : nat) (r : Fetched)
| Send (content : string) (atts : list Upload) (k : Clock)
| SendAnswer (a : Answer)
| Chunk (i : nat) (value : string)
| StreamEnd (i : nat) (k : Clock)
| StreamAbort (i : nat) (msg : option string)
| RefreshAnswer (i : nat) (r : Fetched)
| Switch (id : string)
| SwitchAnswer (i : nat) (r : Fetched).

(** The [i]-th element taken out of a list. *)
Fixpoint take {A : Type} (i : nat) (l : list A) : option (A * list A) :=
  match l, i with
  | [], _ => None
  | a :: rest, O => Some (a, rest)
  | a :: rest, S j =>
      match take j rest with
      | Some (b, rest') => Some (b, a :: rest')
      | None => None
      end
  end.

(** The [i]-th element replaced. *)
Fixpoint put {A : Type} (i : nat) (v : A) (l : list A) : list A :=
  match l, i with
  | [], _ => []
  | _ :: rest, O => v :: rest
  | a :: rest, S j => a :: put j v rest
  end.

Section Exec.

Variable JSON_parse : string -> option JValue.
Variable encodeURIComponent : string -> string.

Definition exec (lab : Label) (x : t) : option t :=
  match lab with
  | LoadMore =>
      match loadMoreMessages_begin encodeURIComponent (store x) with
      | (s, Some req) =>
          Some (mk s (posting x) (turns x) (refreshing x)
                   (loading x ++ [req]) (switching x))
      | (s, None) => Some (with_store s x)
      end
  | LoadMoreAnswer i r =>
      match take i (loading x) with
      | Some (_, rest) =>
          Some (mk (loadMoreMessages_resume r (store x)) (posting x) (turns x)
                   (refreshing x) rest (switching x))
      | None => None
      end
  | Send content atts k =>
      (* without an active chat [sendMessage] first creates one, which
         is not a piece of a loaded session *)
      match chatIdOf (activeChatId (store x)) with
      | Some _ =>
          Some (mk (sendMessage_open content atts k (store x)) (S (posting x))
                   (turns x) (refreshing x) (loading x) (switching x))
      | None => None
      end
  | SendAnswer a =>
      match posting x with
      | S n =>
          let '(s, l) := sendMessage_answer a (store x) in
          Some (mk s n (match l with Some l0 => turns x ++ [l0] | None => turns x end)
                   (refreshing x) (loading x) (switching x))
      | O => None
      end
  | Chunk i value =>
      match nth_error (turns x) i with
      | Some l =>
          let '(l1, s1) := onChunk JSON_parse value l (store x) in
          Some (mk s1 (posting x) (put i l1 (turns x)) (refreshing x)
                   (loading x) (switching x))
      | None => None
      end
  | StreamEnd i k =>
      match take i (turns x) with
      | Some (_, rest) =>
          let '(s1, c) := sendMessage_finish k (store x) in
          Some (mk s1 (posting x) rest
                   (match c with Some c0 => refreshing x ++ [c0] | None => refreshing x end)
                   (loading x) (switching x))
      | None => None
      end
  | StreamAbort i msg =>
      match take i (turns x) with
      | Some (_, rest) =>
          Some (mk (sendMessage_catch
                      (match msg with Some m => m | None => "Something went wrong." end)
                      (store x))
                   (posting x) rest (refreshing x) (loading x) (switching x))
      | None => None
      end
  | RefreshAnswer i r =>
      match take i (refreshing x) with
      | Some (_, rest) =>
          Some (mk (refresh_resume r (store x)) (posting x) (turns x) rest
                   (loading x) (switching x))
      | None => None
      end
  | Switch id =>
      Some (mk (setActiveChat_begin id (store x)) (posting x) (turns x)
               (refreshing x) (loading x) (switching x ++ [id]))
  | SwitchAnswer i r =>
      match take i (switching x) with
      | Some (_, rest) =>
          Some (mk (setActiveChat_resume r (store x)) (posting x) (turns x)
                   (refreshing x) (loading x) rest)
      | None => None
      end
  end.

Fixpoint run (labs : list Label) (x : t) : option t :=
  match labs with
  | [] => Some x
  | lab :: more =>
      match exec lab x with
      | Some x1 => run more x1
      | None => None
      end
  end.

End Exec.

(** The pieces of pagination and of sending up to the end of the
    stream: every label but the refresh after a turn and a chat switch. *)
Definition pagingOrSending (lab : Label) : bool :=
  match lab with
  | LoadMore | LoadMoreAnswer _ _ | Send _ _ _ | SendAnswer _
  | Chunk _ _ | StreamEnd _ _ | StreamAbort _ _ => true
  | RefreshAnswer _ _ | Switch _ | SwitchAnswer _ _ => false
  end.

(** The pieces that happen inside one loaded session: every label but a
    chat switch and the answer to its initial fetch. *)
Definition withinSession (lab : Label) : bool :=
  match lab with
  | Switch _ | SwitchAnswer _ _ => false
  | _ => true
  end.

(** The two fields pagination works with are the same in [s] and [s']. *)
Definition pagingKept (s s' : ChatState) : Prop :=
  hasMoreMessages s' = hasMoreMessages s
  /\ isLoadingMore s' = isLoadingMore s.

(** At most one page request is in flight, and while it is,
    [hasMoreMessages] and [isLoadingMore] are both true. *)
Definition steady (x : t) : Prop :=
  loading x = []
  \/ ((exists req, loading x = [req])
      /\ hasMoreMessages (store x) = true
      /\ isLoadingMore (store x) = true).

End Session.

(** ** The decoder's view of the stream *)

Module Decoder.

(** The payload of a line when the line is a frame: it starts with
    [data:] once trimmed, and something is left after the prefix. *)
Definition frameOf (rawLine : string) : option string :=
  let line := trim rawLine in
  if startsWith "data:" line then
    let data := payload line in
    if String.eqb data "" then None else Some data
  else None.

(** The lines of a text that are closed by a line feed. *)
Definition completeLines (text : string) : list string :=
  removelast (splitLines text).

Fixpoint frames (lines : list string) : list string :=
  match lines with
  | [] => []
  | rawLine :: rest =>
      match frameOf rawLine with
      | Some data => data :: frames rest
      | None => frames rest
      end
  end.

(** The frames of a whole stream, whatever its cut into chunks. *)
Definition framesOf (chunks : list string) : list string :=
  frames (completeLines (joinAll chunks)).



(** The line is a frame whose payload is not the sentinel and parses to
    [parsed]. *)
Definition decodesTo (JSON_parse : string -> option JValue)
  (rawLine : string) (parsed : JValue) : Prop :=
  exists data,
    frameOf rawLine = Some data /\ data <> "[DONE]"
    /\ JSON_parse data = Some parsed.



End Decoder.
Import Decoder.

(** ** A stand-in for [JSON.parse] to run examples

    [Demo.parse] reads the objects whose properties are strings without
    escapes or [null], written without white space, as [JSON.parse]
    does, a later duplicate of a key winning; on every other text it
    answers as for text that is not JSON.  It is used on texts of the
    first kind and on plain words only. *)

Module Demo.

Definition quote : ascii := ascii_of_nat 34.
Definition backslash : ascii := ascii_of_nat 92.

(** [s] between double quotes. *)
Definition q (s : string) : string :=
  String quote (s ++ String quote EmptyString).

Definition nl : string := String newline EmptyString.

(** The text of a string literal up to its closing quote, and the rest. *)
Fixpoint readString (s : string) : option (string * string) :=
  match s with
  | EmptyString => None
  | String c r =>
      if Ascii.eqb c quote then Some (EmptyString, r)
      else if Ascii.eqb c backslash || (nat_of_ascii c <? 32)%nat then None
      else match readString r with
           | Some (v, r') => Some (String c v, r')
           | None => None
           end
  end.

Definition readValue (s : string) : option (JValue * string) :=
  match s with
  | String c r =>
      if Ascii.eqb c quote then
        match readString r with
        | Some (v, r') => Some (JStr v, r')
        | None => None
        end
      else if String.prefix "null" s then Some (JNull, drop 4 s)
      else None
  | EmptyString => None
  end.

(** The properties after the opening brace; [acc] holds the ones read so
    far, the latest first. *)
Fixpoint readFields (fuel : nat) (acc : list (string * JValue)) (s : string)
  : option JValue :=
  match fuel with
  | O => None
  | S fuel' =>
      match s with
      | String c r =>
          if Ascii.eqb c quote then
            match readString r with
            | Some (key, String colon r1) =>
                if Ascii.eqb colon ":"%char then
                  match readValue r1 with
                  | Some (v, String sep r2) =>
                      if Ascii.eqb sep ","%char
                      then readFields fuel' ((key, v) :: acc) r2
                      else if Ascii.eqb sep "}"%char
                      then match r2 with
                           | EmptyString => Some (JObj ((key, v) :: acc))
                           | _ => None
                           end
                      else None
                  | _ => None
                  end
                else None
            | _ => None
            end
          else None
      | EmptyString => None
      end
  end.

Definition parse (text : string) : option JValue :=
  match text with
  | String c r =>
      if Ascii.eqb c "{"%char then
        if String.eqb r "}" then Some (JObj [])
        else readFields (String.length r) [] r
      else None
  | EmptyString => None
  end.

(** [encodeURIComponent] on text made of letters, digits and [-_.!~*'()],
    which it leaves as it is. *)
Definition encode (s : string) : string := s.

(** The text of an event with string properties. *)
Fixpoint props (fs : list (string * string)) : string :=
  match fs with
  | [] => ""
  | [(k, v)] => q k ++ ":" ++ q v
  | (k, v) :: rest => q k ++ ":" ++ q v ++ "," ++ props rest
  end.

Definition event (fs : list (string * string)) : string :=
  "{" ++ props fs ++ "}".

(** A line of the stream: [data: ] and the payload, closed by a line feed. *)
Definition dataLine (data : string) : string := "data: " ++ data ++ nl.

Definition token (c : string) : string :=
  event [("type", "token"); ("content", c)].

(** A line of the stream without its line feed. *)
Definition line (data : string) : string := "data: " ++ data.

Definition clock (n : Z) : Clock :=
  mkClock (fun _ => n) n "2024-01-01T00:00:00.000Z".

Definition message (i : string) (r : Role) (c : string) : Message.t :=
  Message.mk i r c None None "2024-01-01T00:00:00.000Z".

Definition chatOpen (c : string) (window : list Message.t) : ChatState :=
  set_messages window (set_activeChatId (Some c) initial).


(** The message [m<n>], created at second [n]. *)
Definition m (n : Z) : Message.t :=
  Message.mk ("m" ++ showZ n) assistant ("text " ++ showZ n) None None (showZ n).

End Demo.

(** ** The rest of the store *)

Module Api.

(** [s.replace(/\/+$/, '')]: the slashes at the end are removed. *)
Fixpoint stripSlashes (s : string) : string :=
  match s with
  | EmptyString => EmptyString
  | String c r =>
      match stripSlashes r with
      | EmptyString =>
          if Ascii.eqb c "/"%char then EmptyString else String c EmptyString
      | r' => String c r'
      end
  end.

(** [s.endsWith(suffix)] *)
Fixpoint endsWith (suffix s : string) : bool :=
  if String.eqb suffix s then true
  else match s with
       | EmptyString => false
       | String _ r => endsWith suffix r
       end.

(** [getApiBase] of the store, which is [normalizeApiBaseUrl] of the
    client applied to the same variable: [raw] is the value of
    [import.meta.env.VITE_API_URL], [None] when it is not set. *)
Definition getApiBase (raw : option string) : string :=
  let base :=
    stripSlashes (orElse (match raw with Some u => u | None => "" end)
                         "http://localhost:8000") in
  if endsWith "/api" base then base else base ++ "/api".

End Api.

Module Chats.

(** [fetchChats], from the answer of its [get] on. *)
Definition fetchChats_resume (data : list Chat.t) (s : ChatState) : ChatState :=
  set_chats data s.

(** [state.activeChatId === id] *)
Definition isActive (id : string) (s : ChatState) : bool :=
  match activeChatId s with
  | Some a => String.eqb a id
  | None => false
  end.

(** [deleteChat], from the answer of its [delete] on; when the request
    fails the store is not written. *)
Definition deleteChat_resume (id : string) (s : ChatState) : ChatState :=
  set_messages (if isActive id s then [] else messages s)
    (set_activeChatId (if isActive id s then None else activeChatId s)
       (set_chats (filter (fun c => negb (String.eqb (Chat.id c) id)) (chats s))
                  s)).

(** [renameChat], from the answer of its [patch] on. *)
Definition renameChat_resume (id : string) (updatedChat : Chat.t)
  (s : ChatState) : ChatState :=
  set_chats (map (fun c => if String.eqb (Chat.id c) id then updatedChat else c)
                 (chats s)) s.

End Chats.

(** ** More of the decoder's view *)

Module Frames.

(** The payload ends the loop over the lines of its chunk: it is the
    sentinel, or it parses to an [error] or a [done] event. *)
Definition isTerminal (JSON_parse : string -> option JValue) (data : string)
  : bool :=
  if String.eqb data "[DONE]" then true
  else match JSON_parse data with
       | Some parsed =>
           strictEq (field "type" parsed) (JStr "error")
           || strictEq (field "type" parsed) (JStr "done")
       | None => false
       end.

Definition nonTerminal (JSON_parse : string -> option JValue) (data : string)
  : Prop :=
  isTerminal JSON_parse data = false.

(** The loop over the lines, told on the payloads of the frames only. *)
Fixpoint forFrames (JSON_parse : string -> option JValue)
  (datas : list string) (l : Locals) (s : ChatState) : Locals * ChatState :=
  match datas with
  | [] => (l, s)
  | data :: rest =>
      if String.eqb data "[DONE]" then (set_buffer "" l, s)
      else match onPayload JSON_parse data l s with
           | (Break, l1, s1) => (l1, s1)
           | (Continue, l1, s1) => forFrames JSON_parse rest l1 s1
           end
  end.

(** The type of the events the dispatcher knows. *)
Definition knownType (ty : string) : bool :=
  existsb (String.eqb ty)
          ["token"; "tool_start"; "tool_end"; "source"; "title_update";
           "error"; "done"].

(** What a stream leaves alone in the store: the window, the active
    chat, the two fields of pagination, and of every chat all but its
    title. *)
Definition sessionKept (s s' : ChatState) : Prop :=
  messages s' = messages s
  /\ activeChatId s' = activeChatId s
  /\ hasMoreMessages s' = hasMoreMessages s
  /\ isLoadingMore s' = isLoadingMore s
  /\ Forall2 (fun c c' => exists v, c' = Chat.withTitle v c) (chats s) (chats s').



End Frames.
Import Frames.

(** ** The callers in the components *)

Module ChatInput.

(** [canSend] of the input box: [attachments] is the number of files
    attached. *)
Definition canSend (text : string) (attachments : nat) (isLoading : bool)
  : bool :=
  ((0 <? String.length (trim text))%nat || (0 <? attachments)%nat)
  && negb isLoading.

(** [handleSend]: [None] when it returns at its guard, else the message
    it hands to [onSend] (with the attachments as they are). *)
Definition handleSend (text : string) (attachments : nat) (isLoading : bool)
  : option string :=
  let message := trim text in
  if (String.eqb message "" && Nat.eqb attachments 0) || isLoading then None
  else Some message.

End ChatInput.

Module MessageBubble.

(** An entry of the line of sources under an assistant message. *)
Record Source : Type := mkSource
  { name : string;
    citations : list string }.



(** [s.name || (s.citations && s.citations.length > 0)] *)
Definition shown (s : Source) : bool :=
  negb (String.eqb (name s) "")
  || match citations s with [] => false | _ => true end.


End MessageBubble.

Example Demo_parse_token :
  Demo.parse (Demo.token "Hello")
  = Some (JObj [("content", JStr "Hello"); ("type", JStr "token")]).
Proof. reflexivity. Qed.

Example Demo_parse_word : Demo.parse "hello" = None.
Proof. reflexivity. Qed.

Example frameOf_token :
  frameOf ("data: " ++ Demo.token "Hi") = Some (Demo.token "Hi").
Proof. reflexivity. Qed.

Example frameOf_blank : frameOf "" = None /\ frameOf ": ping" = None.
Proof. split; reflexivity. Qed.

Example splitLines_three :
  splitLines ("a" ++ Demo.nl ++ "b" ++ Demo.nl ++ "c") = ["a"; "b"; "c"].
Proof. reflexivity. Qed.

Example trim_both :
  trim ("  data: x " ++ String (ascii_of_nat 13) "") = "data: x".
Proof. reflexivity. Qed.

(** * Facts about the decoder and the dispatcher *)

Section DispatcherFacts.

Variable JSON_parse : string -> option JValue.

Lemma processLine_frameOf (rawLine : string) (l : Locals) (s : ChatState) :
  processLine JSON_parse rawLine l s =
  match frameOf rawLine with
  | None => (Continue, l, s)
  | Some data =>
      if String.eqb data "[DONE]" then (Break, set_buffer "" l, s)
      else onPayload JSON_parse data l s
  end.
Proof.
  unfold processLine, frameOf.
  destruct (startsWith "data:" (trim rawLine)); simpl; [|reflexivity].
  destruct (String.eqb (payload (trim rawLine)) ""); reflexivity.
Qed.

Lemma processLine_decodesTo (rawLine : string) (parsed : JValue)
  (l : Locals) (s : ChatState) :
  decodesTo JSON_parse rawLine parsed ->
  processLine JSON_parse rawLine l s =
  match parsed with
  | JNull | JUndefined =>
      match frameOf rawLine with
      | Some data => onCatch data l s
      | None => (Continue, l, s)
      end
  | _ => dispatch parsed l s
  end.
Proof.
  intros (data & Hf & Hd & Hp).
  rewrite processLine_frameOf, Hf.
  apply String.eqb_neq in Hd. rewrite Hd.
  unfold onPayload. rewrite Hp. destruct parsed; reflexivity.
Qed.

(** A payload with a [type] property is an object. *)
Lemma typed_is_object (parsed : JValue) (ty : string) :
  field "type" parsed = JStr ty -> exists fs, parsed = JObj fs.
Proof.
  destruct parsed; simpl; try discriminate. intros _. eauto.
Qed.

Lemma processLine_typed (rawLine : string) (parsed : JValue) (ty : string)
  (l : Locals) (s : ChatState) :
  decodesTo JSON_parse rawLine parsed ->
  field "type" parsed = JStr ty ->
  processLine JSON_parse rawLine l s = dispatch parsed l s.
Proof.
  intros Hd Ht. rewrite (processLine_decodesTo l s Hd).
  destruct (typed_is_object _ Ht) as [fs ->]. reflexivity.
Qed.

End DispatcherFacts.

Section ToolEvents.

Variable JSON_parse : string -> option JValue.

(** When neither [name] nor [tool] holds a usable value (each is
    missing, null or the empty string), so does [parsed.name ??
    parsed.tool]. *)
Lemma toolNameOf_blank (parsed : JValue) :
  (field "name" parsed = JUndefined \/ field "name" parsed = JNull
   \/ field "name" parsed = JStr "") ->
  (field "tool" parsed = JUndefined \/ field "tool" parsed = JNull
   \/ field "tool" parsed = JStr "") ->
  toolNameOf parsed = JUndefined \/ toolNameOf parsed = JNull
  \/ toolNameOf parsed = JStr "".
Proof.
  unfold toolNameOf. intros [-> | [-> | ->]] Htool; simpl; auto.
Qed.

(** C9. A [tool_start] or [tool_end] event whose name ([parsed.name ??
    parsed.tool]) is undefined (neither property is there), null or the
    empty string is ignored: the body of the loop ends normally and
    leaves the store and the locals of the turn as they were. *)
Theorem C9_tool_event_without_name_is_ignored
  (rawLine : string) (parsed : JValue) (l : Locals) (s : ChatState) :
  decodesTo JSON_parse rawLine parsed ->
  field "type" parsed = JStr "tool_start"
  \/ field "type" parsed = JStr "tool_end" ->
  toolNameOf parsed = JUndefined \/ toolNameOf parsed = JNull
  \/ toolNameOf parsed = JStr "" ->
  processLine JSON_parse rawLine l s = (Continue, l, s).
Proof.
  intros Hd Hty Hname.
  assert (Hfalsy : truthy (toolNameOf parsed) = false)
    by (destruct Hname as [-> | [-> | ->]]; reflexivity).
  destruct Hty as [Hty | Hty];
    rewrite (processLine_typed l s Hd Hty);
    unfold dispatch; rewrite Hty; simpl.
  - unfold onToolStart. rewrite Hfalsy. reflexivity.
  - unfold onToolEnd. rewrite Hfalsy. reflexivity.
Qed.

(** C5, amended. A [tool_end] event with a name completes every entry
    of [activeTools] that has this name, however many there are; the
    entries of another name keep their status, every entry keeps its
    name and citations and its place, and nothing else in the store or
    the locals changes. *)
Theorem C5_tool_end_completes_every_entry_of_the_name
  (rawLine : string) (parsed : JValue) (l : Locals) (s : ChatState) :
  decodesTo JSON_parse rawLine parsed ->
  field "type" parsed = JStr "tool_end" ->
  truthy (toolNameOf parsed) = true ->
  exists s',
    processLine JSON_parse rawLine l s = (Continue, l, s')
    /\ s' = set_activeTools (activeTools s') s
    /\ length (activeTools s') = length (activeTools s)
    /\ forall i t,
         nth_error (activeTools s) i = Some t ->
         exists t',
           nth_error (activeTools s') i = Some t'
           /\ ToolCall.name t' = ToolCall.name t
           /\ ToolCall.citations t' = ToolCall.citations t
           /\ ToolCall.status t' =
              if strictEq (ToolCall.name t) (toolNameOf parsed)
              then completed else ToolCall.status t.
Proof.
  intros Hd Hty Hname.
  rewrite (processLine_typed l s Hd Hty).
  unfold dispatch; rewrite Hty; simpl.
  unfold onToolEnd. rewrite Hname.
  eexists. split; [reflexivity|].
  split; [reflexivity|]. simpl.
  split; [apply length_map|].
  intros i t Hi.
  rewrite nth_error_map, Hi. simpl.
  eexists. split; [reflexivity|].
  destruct (strictEq (ToolCall.name t) (toolNameOf parsed)); auto.
Qed.

End ToolEvents.

(** A [tool_start] without a name and a [tool_end] whose name is empty. *)
Lemma C9_witness :
  processLine Demo.parse ("data: " ++ Demo.event [("type", "tool_start")])
              fresh (Demo.chatOpen "c1" [])
  = (Continue, fresh, Demo.chatOpen "c1" []).
Proof.
  apply (@C9_tool_event_without_name_is_ignored Demo.parse _
           (JObj [("type", JStr "tool_start")])).
  - exists (Demo.event [("type", "tool_start")]).
    split; [reflexivity|]. split; [discriminate|reflexivity].
  - left; reflexivity.
  - left; reflexivity.
Defined.

Lemma C5_witness :
  exists s',
    processLine Demo.parse
      ("data: " ++ Demo.event [("type", "tool_end"); ("name", "search")])
      fresh
      (set_activeTools [ToolCall.mk (JStr "search") started None;
                        ToolCall.mk (JStr "sheet") started None]
                       (Demo.chatOpen "c1" []))
    = (Continue, fresh, s')
    /\ map ToolCall.status (activeTools s') = [completed; started].
Proof.
  destruct (@C5_tool_end_completes_every_entry_of_the_name Demo.parse
              ("data: " ++ Demo.event [("type", "tool_end"); ("name", "search")])
              (JObj [("name", JStr "search"); ("type", JStr "tool_end")])
              fresh
              (set_activeTools [ToolCall.mk (JStr "search") started None;
                                ToolCall.mk (JStr "sheet") started None]
                               (Demo.chatOpen "c1" [])))
    as (s' & Hrun & Hrest & _ & _).
  - exists (Demo.event [("type", "tool_end"); ("name", "search")]).
    split; [reflexivity|]. split; [discriminate|reflexivity].
  - reflexivity.
  - reflexivity.
  - exists s'. split; [exact Hrun|].
    vm_compute in Hrun. injection Hrun as <-. reflexivity.
Defined.

(** C5 as stated fails: with two entries of one name started, one
    [tool_end] of that name completes both, so no started entry of the
    name is left for a second [tool_end] to match. *)
Lemma C5_counterexample :
  let start := Demo.dataLine (Demo.event [("type", "tool_start"); ("name", "search")]) in
  let stop := Demo.dataLine (Demo.event [("type", "tool_end"); ("name", "search")]) in
  let before := snd (readLoop Demo.parse [start; start] fresh (Demo.chatOpen "c1" [])) in
  let after := snd (readLoop Demo.parse [start; start; stop] fresh (Demo.chatOpen "c1" [])) in
  activeTools before
  = [ToolCall.mk (JStr "search") started None;
     ToolCall.mk (JStr "search") started None]
  /\ activeTools after
     = [ToolCall.mk (JStr "search") completed None;
        ToolCall.mk (JStr "search") completed None].
Proof. split; reflexivity. Qed.

Section TextEvents.

Variable JSON_parse : string -> option JValue.






(** C7. A frame whose payload is not JSON is not an error: the payload is
    appended as it is to the streamed text (and counts as the first
    token), nothing else in the store changes, and the loop goes on with
    the next line. *)
Theorem C7_malformed_payload_is_appended
  (rawLine p : string) (rest : list string) (l : Locals) (s : ChatState) :
  frameOf rawLine = Some p ->
  p <> "[DONE]" ->
  JSON_parse p = None ->
  exists l' s',
    processLine JSON_parse rawLine l s = (Continue, l', s')
    /\ streamingMessage s' = streamingMessage s ++ p
    /\ s' = set_streamingMessage (streamingMessage s')
              (if hasReceivedFirstToken l then s else set_isLoading false s)
    /\ l' = set_hasReceivedFirstToken true l
    /\ forLines JSON_parse (rawLine :: rest) l s = forLines JSON_parse rest l' s'.
Proof.
  intros Hf Hd Hp.
  assert (Hline : processLine JSON_parse rawLine l s = onCatch p l s).
  { rewrite processLine_frameOf, Hf.
    apply String.eqb_neq in Hd. rewrite Hd.
    unfold onPayload. rewrite Hp. reflexivity. }
  simpl forLines. rewrite Hline.
  unfold onCatch, markFirstToken.
  destruct l as [b f m]; destruct f; simpl;
    do 2 eexists; repeat split; reflexivity.
Qed.


End TextEvents.

(** * Lines across chunk boundaries *)

Lemma append_nil_r (s : string) : s ++ "" = s.
Proof. induction s as [|c r IH]; simpl; congruence. Qed.

Lemma append_assoc (a b c : string) : (a ++ b) ++ c = a ++ (b ++ c).
Proof. induction a as [|x r IH]; simpl; congruence. Qed.


Lemma splitLines_nonempty (s : string) : splitLines s <> [].
Proof.
  destruct s as [|c r]; simpl; [discriminate|].
  destruct (Ascii.eqb c newline); [discriminate|].
  destruct (splitLines r); discriminate.
Qed.

(** Splitting a text that was cut in two: the lines closed in the first
    part, then the split of what the first part left open followed by
    the second part.  This is what the buffer of [sendMessage] relies
    on. *)
Lemma splitLines_app (a b : string) :
  splitLines (a ++ b)
  = (removelast (splitLines a) ++ splitLines (last (splitLines a) "" ++ b))%list.
Proof.
  induction a as [|c r IH]; [reflexivity|].
  simpl append. simpl splitLines.
  pose proof (splitLines_nonempty r) as Hne.
  destruct (Ascii.eqb c newline) eqn:Hc.
  - rewrite IH. destruct (splitLines r) as [|h t]; [contradiction|].
    reflexivity.
  - rewrite IH. destruct (splitLines r) as [|h t]; [contradiction|].
    destruct t as [|h2 t2].
    + simpl. rewrite Hc. reflexivity.
    + reflexivity.
Qed.

(** What a split leaves open holds no closed line. *)
Lemma completeLines_last (s : string) :
  completeLines (last (splitLines s) "") = [].
Proof.
  unfold completeLines.
  induction s as [|c r IH]; [reflexivity|].
  simpl splitLines.
  pose proof (splitLines_nonempty r) as Hne.
  destruct (Ascii.eqb c newline) eqn:Hc.
  - destruct (splitLines r) as [|h t]; [contradiction|]. exact IH.
  - destruct (splitLines r) as [|h t]; [contradiction|].
    destruct t as [|h2 t2]; [|exact IH].
    simpl in *. rewrite Hc.
    pose proof (splitLines_nonempty h) as Hh.
    destruct (splitLines h) as [|h' t']; [contradiction|].
    destruct t'; [reflexivity|discriminate].
Qed.

Lemma completeLines_app (a b : string) :
  completeLines (a ++ b)
  = (completeLines a ++ completeLines (last (splitLines a) "" ++ b))%list.
Proof.
  unfold completeLines. rewrite splitLines_app.
  apply removelast_app, splitLines_nonempty.
Qed.

Lemma frames_app (xs ys : list string) :
  frames (xs ++ ys) = (frames xs ++ frames ys)%list.
Proof.
  induction xs as [|x xs IH]; simpl; [reflexivity|].
  destruct (frameOf x); simpl; congruence.
Qed.

Section TokenStream.

Variable JSON_parse : string -> option JValue.







End TokenStream.

(** * Examples of turns *)

(** Scenario 1 of the specification, the stream cut in the middle of the
    second frame. *)
Example turn_hello_world :
  let text := Demo.dataLine (Demo.token "Hello") ++ Demo.nl
              ++ Demo.dataLine (Demo.token " world") ++ Demo.nl
              ++ Demo.dataLine (Demo.event [("type", "done")]) ++ Demo.nl in
  let chunks := [substring 0 50 text; substring 50 200 text] in
  let opened := sendMessage_open "hi" [] (Demo.clock 1) (Demo.chatOpen "c1" []) in
  let streamed := snd (readLoop Demo.parse chunks fresh opened) in
  let finished := fst (sendMessage_finish (Demo.clock 2) streamed) in
  joinAll chunks = text
  /\ map Message.content (messages finished) = ["hi"; "Hello world"]
  /\ isLoading finished = false.
Proof. repeat split. Qed.

(** Scenario 2: a tool with its citations. *)
Example turn_tool_with_citations :
  let parse (text : string) :=
    if String.eqb text "SOURCE"
    then Some (JObj [("type", JStr "source"); ("name", JStr "search");
                     ("citations", JArr [JStr "docA"; JStr "docB"])])
    else Demo.parse text in
  let chunks :=
    [Demo.dataLine (Demo.event [("type", "tool_start"); ("name", "search")]);
     Demo.dataLine "SOURCE";
     Demo.dataLine (Demo.event [("type", "tool_end"); ("name", "search")]);
     Demo.dataLine (Demo.event [("type", "done")])] in
  activeTools (snd (readLoop parse chunks fresh (Demo.chatOpen "c1" [])))
  = [ToolCall.mk (JStr "search") completed (Some ["docA"; "docB"])].
Proof. reflexivity. Qed.

(** Citations that arrive before their tool are kept for it. *)
Example turn_source_before_tool :
  let parse (text : string) :=
    if String.eqb text "SOURCE"
    then Some (JObj [("type", JStr "source"); ("name", JStr "search");
                     ("citations", JArr [JStr "docA"])])
    else Demo.parse text in
  let chunks :=
    [Demo.dataLine "SOURCE";
     Demo.dataLine (Demo.event [("type", "tool_start"); ("name", "search")])] in
  activeTools (snd (readLoop parse chunks fresh (Demo.chatOpen "c1" [])))
  = [ToolCall.mk (JStr "search") started (Some ["docA"])].
Proof. reflexivity. Qed.

(** * The end of a stream *)

Section Terminal.

Variable JSON_parse : string -> option JValue.

(** A [break] leaves the lines that follow in the chunk unread. *)
Lemma forLines_break (rawLine : string) (rest : list string)
  (l l1 : Locals) (s s1 : ChatState) :
  processLine JSON_parse rawLine l s = (Break, l1, s1) ->
  forLines JSON_parse (rawLine :: rest) l s = (l1, s1).
Proof. intros H. simpl. rewrite H. reflexivity. Qed.

(** Every [break] comes with [buffer = '']: what the chunk left open is
    dropped too. *)
Lemma processLine_break_buffer (rawLine : string)
  (l l1 : Locals) (s s1 : ChatState) :
  processLine JSON_parse rawLine l s = (Break, l1, s1) -> buffer l1 = "".
Proof.
  rewrite processLine_frameOf.
  destruct (frameOf rawLine) as [data|]; [|discriminate].
  destruct (String.eqb data "[DONE]").
  - intros H; inversion H; reflexivity.
  - unfold onPayload, onCatch, markFirstToken.
    destruct (JSON_parse data) as [parsed|].
    + unfold dispatch, onToken, onToolStart, onToolEnd, onSource,
        onTitleUpdate, onError, markFirstToken.
      destruct parsed; destruct (hasReceivedFirstToken l);
        repeat match goal with
               | |- context [if ?b then _ else _] => destruct b
               end;
        intros H; inversion H; reflexivity.
    + destruct (hasReceivedFirstToken l); discriminate.
Qed.

(** The sentinel ends the loop over the lines of its chunk and changes
    nothing in the store. *)
Lemma sentinel_breaks (rawLine : string) (rest : list string)
  (l : Locals) (s : ChatState) :
  frameOf rawLine = Some "[DONE]" ->
  forLines JSON_parse (rawLine :: rest) l s = (set_buffer "" l, s).
Proof.
  intros H. apply forLines_break. rewrite processLine_frameOf, H. reflexivity.
Qed.

End Terminal.

(** C1, at the input where the code leaves it.  After the sentinel, a
    [done] event or an [error] event, the lines that follow in the same
    chunk are dropped; but the [break] only leaves the loop over the
    lines, the loop over the chunks reads on, and a frame of a later
    chunk is processed like any other: here its token is appended to the
    streamed text and ends in the assistant message. *)
Theorem C1_frame_of_a_later_chunk_is_processed :
  let opened := sendMessage_open "hi" [] (Demo.clock 1) (Demo.chatOpen "c1" []) in
  let late := Demo.dataLine (Demo.token "late") in
  let text chunks := streamingMessage (snd (readLoop Demo.parse chunks fresh opened)) in
  let final chunks :=
    map Message.content
        (messages (fst (sendMessage_finish (Demo.clock 2)
                          (snd (readLoop Demo.parse chunks fresh opened))))) in
  text [Demo.dataLine "[DONE]" ++ late] = ""
  /\ text [Demo.dataLine "[DONE]"; late] = "late"
  /\ text [Demo.dataLine (Demo.event [("type", "done")]); late] = "late"
  /\ text [Demo.dataLine (Demo.event [("type", "error"); ("content", "boom")]);
           late] = "boomlate"
  /\ final [Demo.dataLine "[DONE]"] = ["hi"; ""]
  /\ final [Demo.dataLine "[DONE]"; late] = ["hi"; "late"].
Proof. repeat split. Qed.


Lemma C7_witness :
  exists l' s',
    processLine Demo.parse "data: hello" fresh (Demo.chatOpen "c1" [])
    = (Continue, l', s')
    /\ streamingMessage s' = "hello"
    /\ forLines Demo.parse ["data: hello"; "data: there"] fresh
                (Demo.chatOpen "c1" [])
       = forLines Demo.parse ["data: there"] l' s'.
Proof.
  destruct (@C7_malformed_payload_is_appended Demo.parse "data: hello" "hello"
              ["data: there"] fresh (Demo.chatOpen "c1" []))
    as (l' & s' & Hline & Htext & _ & _ & Hnext).
  - reflexivity.
  - discriminate.
  - reflexivity.
  - exists l', s'. split; [exact Hline|]. split; [exact Htext|exact Hnext].
Defined.



(** * Pagination *)

Section PageRequest.

Variable encodeURIComponent : string -> string.

(** C10. With a chat active, [hasMoreMessages] true and no page fetch in
    flight, [loadMoreMessages] on an empty window goes past the guard,
    raises [isLoadingMore] and asks for the messages of the chat with
    [?limit=10] and no [before]: the request of the most recent page. *)
Theorem C10_load_more_on_an_empty_window
  (s : ChatState) (c : string) :
  chatIdOf (activeChatId s) = Some c ->
  hasMoreMessages s = true ->
  isLoadingMore s = false ->
  messages s = [] ->
  loadMoreMessages_begin encodeURIComponent s
  = (set_isLoadingMore true s, Some (mkRequest c "?limit=10")).
Proof.
  intros Hc Hmore Hbusy Hwin.
  unfold loadMoreMessages_begin. rewrite Hc, Hmore, Hbusy, Hwin. reflexivity.
Qed.

End PageRequest.

Lemma C10_witness :
  loadMoreMessages_begin Demo.encode (Demo.chatOpen "c1" [])
  = (set_isLoadingMore true (Demo.chatOpen "c1" []),
     Some (mkRequest "c1" "?limit=10")).
Proof.
  apply (@C10_load_more_on_an_empty_window Demo.encode (Demo.chatOpen "c1" []) "c1");
    reflexivity.
Defined.

(** With a window, the cursor is the id of its first message. *)
Example load_more_with_cursor :
  snd (loadMoreMessages_begin Demo.encode (Demo.chatOpen "c1" [Demo.m 5; Demo.m 6]))
  = Some (mkRequest "c1" "?before=m5&limit=10").
Proof. reflexivity. Qed.

(** Scenario 5: a second trigger while the first is in flight asks
    nothing. *)
Example load_more_twice :
  let '(s1, r1) := loadMoreMessages_begin Demo.encode (Demo.chatOpen "c1" [Demo.m 5]) in
  r1 = Some (mkRequest "c1" "?before=m5&limit=10")
  /\ loadMoreMessages_begin Demo.encode s1 = (s1, None).
Proof. split; reflexivity. Qed.

Section Merge.

Variable instant : string -> Z.

Lemma hasId_In (window : list Message.t) (i : string) :
  hasId window i = true <-> In i (map Message.id window).
Proof.
  unfold hasId. rewrite existsb_exists, in_map_iff.
  split; intros (m & H1 & H2).
  - exists m. apply String.eqb_eq in H2. auto.
  - exists m. split; [exact H2|]. apply String.eqb_eq. exact H1.
Qed.

Lemma newOnes_In (window older : list Message.t) (m : Message.t) :
  In m (newOnes window older)
  <-> In m older /\ ~ In (Message.id m) (map Message.id window).
Proof.
  unfold newOnes. rewrite filter_In, <- hasId_In.
  destruct (hasId window (Message.id m)); simpl; intuition congruence.
Qed.




(** The window after a page was merged. *)
Lemma merged_window (p : Page) (s : ChatState) :
  messages (loadMoreMessages_resume (Ok p) s)
  = (newOnes (messages s) (page_messages p) ++ messages s)%list.
Proof.
  unfold loadMoreMessages_resume.
  destruct (page_messages p); reflexivity.
Qed.


End Merge.

(** Scenario 4 of the specification. *)
Example merge_four_older :
  let s := Demo.chatOpen "c1" (map Demo.m [5; 6; 7; 8; 9; 10]%Z) in
  let s' := loadMoreMessages_resume (Ok (mkPage (map Demo.m [1; 2; 3; 4]%Z) None))
                                    (set_isLoadingMore true s) in
  messages s' = map Demo.m [1; 2; 3; 4; 5; 6; 7; 8; 9; 10]%Z
  /\ hasMoreMessages s' = false
  /\ isLoadingMore s' = false.
Proof. repeat split. Qed.




(** * Sessions: what the pieces in flight do to [hasMoreMessages] *)

Section SessionFacts.

Import Session.

Variable JSON_parse : string -> option JValue.
Variable encodeURIComponent : string -> string.

Lemma pagingKept_refl (s : ChatState) : pagingKept s s.
Proof. split; reflexivity. Qed.

Lemma pagingKept_trans (s1 s2 s3 : ChatState) :
  pagingKept s1 s2 -> pagingKept s2 s3 -> pagingKept s1 s3.
Proof. unfold pagingKept. intros [? ?] [? ?]. split; congruence. Qed.

Lemma dispatch_paging (parsed : JValue) (l : Locals) (s : ChatState) :
  pagingKept s (snd (dispatch parsed l s)).
Proof.
  unfold dispatch, onToken, onToolStart, onToolEnd, onSource, onTitleUpdate,
    onError, markFirstToken.
  destruct (hasReceivedFirstToken l);
    repeat match goal with
           | |- context [if ?b then _ else _] => destruct b
           end;
    split; reflexivity.
Qed.

Lemma onCatch_paging (data : string) (l : Locals) (s : ChatState) :
  pagingKept s (snd (onCatch data l s)).
Proof.
  unfold onCatch, markFirstToken.
  destruct (hasReceivedFirstToken l); split; reflexivity.
Qed.

Lemma processLine_paging (rawLine : string) (l : Locals) (s : ChatState) :
  pagingKept s (snd (processLine JSON_parse rawLine l s)).
Proof.
  rewrite processLine_frameOf.
  destruct (frameOf rawLine) as [data|]; [|apply pagingKept_refl].
  destruct (String.eqb data "[DONE]"); [apply pagingKept_refl|].
  unfold onPayload.
  destruct (JSON_parse data) as [parsed|]; [|apply onCatch_paging].
  destruct parsed; try apply dispatch_paging; apply onCatch_paging.
Qed.

Lemma forLines_paging (lines : list string) :
  forall (l : Locals) (s : ChatState),
    pagingKept s (snd (forLines JSON_parse lines l s)).
Proof.
  induction lines as [|rawLine rest IH]; intros l s; simpl.
  - apply pagingKept_refl.
  - pose proof (processLine_paging rawLine l s) as Hline.
    destruct (processLine JSON_parse rawLine l s) as [[[|] l1] s1]; simpl in *.
    + eapply pagingKept_trans; [exact Hline|apply IH].
    + exact Hline.
Qed.

Lemma onChunk_paging (value : string) (l : Locals) (s : ChatState) :
  pagingKept s (snd (onChunk JSON_parse value l s)).
Proof. unfold onChunk. apply forLines_paging. Qed.

Lemma sendMessage_answer_paging (a : Answer) (s : ChatState) :
  pagingKept s (fst (sendMessage_answer a s)).
Proof. destruct a as [[msg|] | | errText | |]; split; reflexivity. Qed.

Lemma take_nth_error {A : Type} (i : nat) (l : list A) (a : A) :
  nth_error l i = Some a -> exists rest, take i l = Some (a, rest).
Proof.
  revert i. induction l as [|b l IH]; intros [|i]; simpl; try discriminate.
  - intros H; inversion H; eauto.
  - intros H. destruct (IH i H) as (rest & ->). eauto.
Qed.

Lemma take_length {A : Type} (i : nat) (l rest : list A) (a : A) :
  take i l = Some (a, rest) -> length l = S (length rest).
Proof.
  revert i rest. induction l as [|b l IH]; intros [|i] rest; simpl;
    try discriminate.
  - intros H; inversion H; reflexivity.
  - destruct (take i l) as [[c rest']|] eqn:Ht; [|discriminate].
    intros H; inversion H; subst. simpl. f_equal. eapply IH. exact Ht.
Qed.

(** One piece of pagination or of sending: the invariant is kept, and
    [hasMoreMessages] does not go from false to true. *)
Lemma exec_steady (lab : Label) (x x' : t) :
  pagingOrSending lab = true ->
  exec JSON_parse encodeURIComponent lab x = Some x' ->
  steady x ->
  steady x'
  /\ (hasMoreMessages (store x) = false -> hasMoreMessages (store x') = false).
Proof.
  intros Hlab Hexec Hst.
  assert (Hkept : forall s', pagingKept (store x) s' -> loading x' = loading x ->
                             store x' = s' ->
                             steady x'
                             /\ (hasMoreMessages (store x) = false ->
                                 hasMoreMessages (store x') = false)).
  { intros s' [Hm Hl] Hload <-. unfold steady. rewrite Hload, Hm, Hl.
    split; [exact Hst|auto]. }
  destruct lab; try discriminate Hlab; simpl in Hexec.
  - (* LoadMore *)
    unfold loadMoreMessages_begin in Hexec.
    destruct (chatIdOf (activeChatId (store x))) as [c|].
    + destruct (hasMoreMessages (store x)) eqn:Hmore; simpl in Hexec.
      * destruct (isLoadingMore (store x)) eqn:Hbusy; simpl in Hexec.
        -- inversion Hexec; subst.
           apply (Hkept _ (pagingKept_refl _)); reflexivity.
        -- inversion Hexec; subst; simpl.
           split; [|discriminate].
           right. destruct Hst as [Hnone | (_ & _ & Htrue)].
           ++ rewrite Hnone. simpl. eauto.
           ++ congruence.
      * inversion Hexec; subst.
        apply (Hkept _ (pagingKept_refl _)); reflexivity.
    + inversion Hexec; subst.
        apply (Hkept _ (pagingKept_refl _)); reflexivity.
  - (* LoadMoreAnswer *)
    destruct (take i (loading x)) as [[req rest]|] eqn:Ht; [|discriminate].
    inversion Hexec; subst; simpl.
    destruct Hst as [Hnone | ((req0 & Hone) & Hmore & _)].
    + rewrite Hnone in Ht. destruct i; discriminate.
    + split; [|congruence].
      left. apply take_length in Ht. rewrite Hone in Ht. simpl in Ht.
      destruct rest; [reflexivity|discriminate].
  - (* Send *)
    destruct (chatIdOf (activeChatId (store x))); [|discriminate].
    inversion Hexec; subst.
    eapply Hkept; [|reflexivity|reflexivity]. split; reflexivity.
  - (* SendAnswer *)
    destruct (posting x); [discriminate|].
    pose proof (sendMessage_answer_paging a (store x)) as Ha.
    destruct (sendMessage_answer a (store x)) as [s1 l1].
    inversion Hexec; subst. apply (Hkept _ Ha); reflexivity.
  - (* Chunk *)
    destruct (nth_error (turns x) i) as [l|]; [|discriminate].
    pose proof (onChunk_paging value l (store x)) as Hc.
    destruct (onChunk JSON_parse value l (store x)) as [l1 s1].
    inversion Hexec; subst. apply (Hkept _ Hc); reflexivity.
  - (* StreamEnd *)
    destruct (take i (turns x)) as [[l rest]|]; [|discriminate].
    unfold sendMessage_finish in Hexec.
    inversion Hexec; subst.
    eapply Hkept; [|reflexivity|reflexivity]. split; reflexivity.
  - (* StreamAbort *)
    destruct (take i (turns x)) as [[l rest]|]; [|discriminate].
    inversion Hexec; subst.
    eapply Hkept; [|reflexivity|reflexivity]. split; reflexivity.
Qed.

Lemma run_steady (labs : list Label) :
  forall x x',
    forallb pagingOrSending labs = true ->
    run JSON_parse encodeURIComponent labs x = Some x' ->
    steady x ->
    steady x'
    /\ (hasMoreMessages (store x) = false -> hasMoreMessages (store x') = false).
Proof.
  induction labs as [|lab more IH]; intros x x' Hall Hrun Hst; simpl in *.
  - inversion Hrun; subst. auto.
  - apply andb_prop in Hall as [Hlab Hmore].
    destruct (exec JSON_parse encodeURIComponent lab x) as [x1|] eqn:Hexec;
      [|discriminate].
    destruct (@exec_steady lab x x1 Hlab Hexec Hst) as [Hst1 Hmono1].
    destruct (IH _ _ Hmore Hrun Hst1) as [Hst' Hmono].
    auto.
Qed.

End SessionFacts.

Section SessionClaims.

Import Session.

Variable JSON_parse : string -> option JValue.
Variable encodeURIComponent : string -> string.

(** C2, amended. From a session with no page request in flight, through
    any pieces of pagination (triggers and answers) and of sending
    (the post, its answer, the chunks of the stream, its end),
    [hasMoreMessages] never goes from false to true: once false at some
    point of the run it is false at every later point, in particular
    after a page fetch answered with no messages, and however often
    pagination is triggered again.  The refresh after a turn is not one
    of these pieces: it writes the flag of the server's answer. *)
Theorem C2_has_more_stays_false_under_paging_and_sending
  (x x1 x2 : Session.t) (labs1 labs2 : list Label) :
  loading x = [] ->
  forallb pagingOrSending (labs1 ++ labs2) = true ->
  run JSON_parse encodeURIComponent labs1 x = Some x1 ->
  run JSON_parse encodeURIComponent labs2 x1 = Some x2 ->
  (hasMoreMessages (store x1) = false -> hasMoreMessages (store x2) = false)
  /\ (forall x0 i flag,
         exec JSON_parse encodeURIComponent
              (LoadMoreAnswer i (Ok (mkPage [] flag))) x0 = Some x1 ->
         hasMoreMessages (store x2) = false).
Proof.
  intros Hquiet Hall Hrun1 Hrun2.
  rewrite forallb_app in Hall. apply andb_prop in Hall as [Hall1 Hall2].
  assert (Hst : steady x) by (left; exact Hquiet).
  destruct (@run_steady JSON_parse encodeURIComponent labs1 x x1 Hall1 Hrun1 Hst)
    as [Hst1 _].
  destruct (@run_steady JSON_parse encodeURIComponent labs2 x1 x2 Hall2 Hrun2 Hst1)
    as [_ Hmono].
  split; [exact Hmono|].
  intros x0 i flag Hexec. apply Hmono.
  simpl in Hexec.
  destruct (take i (loading x0)) as [[req rest]|]; [|discriminate].
  inversion Hexec; subst. reflexivity.
Qed.

(** C3, amended. No answer is checked against the chat that is active
    when it arrives.  The answer to a page request or to a refresh that
    was made for another chat than the active one is written like any
    other: a refresh that answered a page replaces [messages] by the
    page (first message of every id) and [hasMoreMessages] by its flag;
    a page request that answered a page puts the messages whose id is
    not in the window in front of it, sets [hasMoreMessages] and clears
    [isLoadingMore].  What is never written by an answer is the active
    chat id, the chat list, [isLoading], the streamed text and the
    tools; and an answer that failed leaves the window and
    [hasMoreMessages] as they were. *)
Theorem C3_answers_are_written_whatever_the_active_chat
  (r : Fetched) (x : Session.t) :
  (forall i req,
      nth_error (loading x) i = Some req ->
      chatIdOf (activeChatId (store x)) <> Some (chat req) ->
      exists x',
        exec JSON_parse encodeURIComponent (LoadMoreAnswer i r) x = Some x'
        /\ store x' = loadMoreMessages_resume r (store x))
  /\ (forall i c,
         nth_error (refreshing x) i = Some c ->
         chatIdOf (activeChatId (store x)) <> Some c ->
         exists x',
           exec JSON_parse encodeURIComponent (RefreshAnswer i r) x = Some x'
           /\ store x' = refresh_resume r (store x))
  /\ (forall s p,
         r = Ok p ->
         refresh_resume r s
         = set_hasMoreMessages (hasMoreOf p) (set_messages (uniqueMessages p) s)
         /\ loadMoreMessages_resume r s
            = set_isLoadingMore false
                (set_hasMoreMessages
                   (match page_messages p with [] => false | _ => hasMoreOf p end)
                   (set_messages
                      (newOnes (messages s) (page_messages p) ++ messages s) s)))
  /\ (forall s,
         r = NotOk \/ r = Threw ->
         refresh_resume r s = s
         /\ loadMoreMessages_resume r s = set_isLoadingMore false s)
  /\ (forall s c,
         refresh_resume r (set_activeChatId c s)
         = set_activeChatId c (refresh_resume r s)
         /\ loadMoreMessages_resume r (set_activeChatId c s)
            = set_activeChatId c (loadMoreMessages_resume r s)).
Proof.
  split; [|split; [|split; [|split]]].
  - intros i req Hin _. simpl.
    destruct (take_nth_error _ _ Hin) as (rest & ->). eauto.
  - intros i c Hin _. simpl.
    destruct (take_nth_error _ _ Hin) as (rest & ->). eauto.
  - intros s p ->. split; [reflexivity|].
    unfold loadMoreMessages_resume.
    destruct s; destruct (page_messages p); reflexivity.
  - intros s [-> | ->]; split; reflexivity.
  - intros s c. split.
    + destruct r; reflexivity.
    + destruct r as [| |p]; try reflexivity.
      unfold loadMoreMessages_resume. destruct (page_messages p); reflexivity.
Qed.

End SessionClaims.

(** A page fetch answers with no messages; pagination is triggered
    again, a message is sent and its stream read to the end, pagination
    is triggered once more: [hasMoreMessages] is still false. *)
Lemma C2_witness :
  let x := Session.quiet (Demo.chatOpen "c1" [Demo.m 5]) in
  let labs1 :=
    [Session.LoadMore; Session.LoadMoreAnswer 0 (Ok (mkPage [] None))] in
  let labs2 :=
    [Session.LoadMore;
     Session.Send "hi" [] (Demo.clock 1);
     Session.SendAnswer Stream;
     Session.Chunk 0 (Demo.dataLine (Demo.token "ok"));
     Session.StreamEnd 0 (Demo.clock 2);
     Session.LoadMore] in
  exists x1 x2,
    Session.run Demo.parse Demo.encode labs1 x = Some x1
    /\ Session.run Demo.parse Demo.encode labs2 x1 = Some x2
    /\ hasMoreMessages (Session.store x1) = false
    /\ hasMoreMessages (Session.store x2) = false
    /\ map Message.content (messages (Session.store x2)) = ["text 5"; "hi"; "ok"].
Proof.
  intros x labs1 labs2.
  destruct (Session.run Demo.parse Demo.encode labs1 x) as [x1|] eqn:Hrun1;
    [|discriminate Hrun1].
  destruct (Session.run Demo.parse Demo.encode labs2 x1) as [x2|] eqn:Hrun2;
    [|vm_compute in Hrun1; injection Hrun1 as <-; discriminate Hrun2].
  exists x1, x2.
  destruct (@C2_has_more_stays_false_under_paging_and_sending
              Demo.parse Demo.encode x x1 x2 labs1 labs2)
    as [Hmono _]; try reflexivity; try assumption.
  assert (Hfalse : hasMoreMessages (Session.store x1) = false)
    by (vm_compute in Hrun1; injection Hrun1 as <-; reflexivity).
  repeat split; auto.
  vm_compute in Hrun1; injection Hrun1 as <-.
  vm_compute in Hrun2; injection Hrun2 as <-. reflexivity.
Defined.

(** C2 as stated fails at the refresh after a turn.  The window holds
    twelve messages and a page fetch found nothing older, so
    [hasMoreMessages] is false; a message is sent; the refresh answers
    with the ten most recent messages and no flag, the store takes them
    as its window and infers from their number that there are more. *)
Lemma C2_counterexample :
  let x := Session.quiet
             (Demo.chatOpen "c1" (map Demo.m [1; 2; 3; 4; 5; 6; 7; 8; 9; 10; 11; 12]%Z)) in
  let paged :=
    [Session.LoadMore; Session.LoadMoreAnswer 0 (Ok (mkPage [] None))] in
  let sent :=
    [Session.Send "hi" [] (Demo.clock 1);
     Session.SendAnswer Stream;
     Session.Chunk 0 (Demo.dataLine (Demo.token "ok"));
     Session.StreamEnd 0 (Demo.clock 2)] in
  let refreshed :=
    [Session.RefreshAnswer 0
       (Ok (mkPage (map Demo.m [5; 6; 7; 8; 9; 10; 11; 12; 13; 14]%Z) None))] in
  let flag labs :=
    option_map (fun y => hasMoreMessages (Session.store y))
               (Session.run Demo.parse Demo.encode labs x) in
  forallb Session.withinSession (paged ++ sent ++ refreshed)%list = true
  /\ flag paged = Some false
  /\ flag (paged ++ sent)%list = Some false
  /\ flag (paged ++ sent ++ refreshed)%list = Some true.
Proof. repeat split. Qed.

(** A page request made for chat A answers after the switch to chat B,
    and a refresh likewise. *)
Lemma C3_witness :
  let x :=
    Session.mk (Demo.chatOpen "B" [Demo.m 20]) 0 [] ["A"]
               [mkRequest "A" "?before=m5&limit=10"] [] in
  let r := Ok (mkPage [Demo.m 3; Demo.m 4] (Some true)) in
  (exists x',
      Session.exec Demo.parse Demo.encode (Session.LoadMoreAnswer 0 r) x = Some x'
      /\ messages (Session.store x') = [Demo.m 3; Demo.m 4; Demo.m 20])
  /\ (exists x',
         Session.exec Demo.parse Demo.encode (Session.RefreshAnswer 0 r) x = Some x'
         /\ map Message.id (messages (Session.store x')) = ["m3"; "m4"]).
Proof.
  intros x r.
  destruct (@C3_answers_are_written_whatever_the_active_chat
              Demo.parse Demo.encode r x) as (Hpage & Hrefresh & _).
  split.
  - destruct (Hpage 0 (mkRequest "A" "?before=m5&limit=10") eq_refl)
      as (x' & Hexec & Hstore); [discriminate|].
    exists x'. split; [exact Hexec|]. rewrite Hstore. reflexivity.
  - destruct (Hrefresh 0 "A" eq_refl) as (x' & Hexec & Hstore); [discriminate|].
    exists x'. split; [exact Hexec|]. rewrite Hstore. reflexivity.
Defined.

(** C3 as stated fails for both fetches.  Chat A is open; a page request
    is made (or a turn ends and its refresh is made); the user switches
    to chat B, whose first page arrives; then the answer for chat A
    arrives and is written into the window of chat B. *)
Lemma C3_counterexample :
  let x := Session.quiet (Demo.chatOpen "A" [Demo.m 5]) in
  let switched :=
    [Session.Switch "B";
     Session.SwitchAnswer 0 (Ok (mkPage [Demo.m 20] (Some false)))] in
  let paging := Session.LoadMore :: switched in
  let sending :=
    ([Session.Send "hi" [] (Demo.clock 1); Session.SendAnswer Stream;
      Session.StreamEnd 0 (Demo.clock 2)] ++ switched)%list in
  let answerForA := Ok (mkPage [Demo.m 3; Demo.m 4] (Some true)) in
  let view labs :=
    option_map (fun y => (activeChatId (Session.store y),
                          map Message.id (messages (Session.store y)),
                          hasMoreMessages (Session.store y),
                          map chat (Session.loading y), Session.refreshing y))
               (Session.run Demo.parse Demo.encode labs x) in
  view paging = Some (Some "B", ["m20"], false, ["A"], [])
  /\ view (paging ++ [Session.LoadMoreAnswer 0 answerForA])%list
     = Some (Some "B", ["m3"; "m4"; "m20"], true, [], [])
  /\ view sending = Some (Some "B", ["m20"], false, [], ["A"])
  /\ view (sending ++ [Session.RefreshAnswer 0 answerForA])%list
     = Some (Some "B", ["m3"; "m4"], true, [], []).
Proof. repeat split. Qed.

(** * More about the decoder: frames, chunks and the end of the text *)

Section FrameFacts.

Variable JSON_parse : string -> option JValue.

Ltac by_type parsed :=
  unfold dispatch;
  destruct (field "type" parsed) as [| | |?|ty| |] eqn:?; simpl;
  try reflexivity;
  repeat match goal with
         | |- context [String.eqb ty ?lit] =>
             destruct (String.eqb_spec ty lit); [subst ty; simpl|]
         end.

(** Which events end the loop over the lines. *)
Lemma dispatch_ctl (parsed : JValue) (l : Locals) (s : ChatState) :
  fst (fst (dispatch parsed l s))
  = if strictEq (field "type" parsed) (JStr "error")
       || strictEq (field "type" parsed) (JStr "done")
    then Break else Continue.
Proof.
  by_type parsed;
    unfold onToken, onToolStart, onToolEnd, onSource, onTitleUpdate, onError,
      markFirstToken; simpl;
    repeat match goal with
           | |- context [if ?b then _ else _] => destruct b
           end;
    reflexivity.
Qed.

Lemma onCatch_ctl (data : string) (l : Locals) (s : ChatState) :
  fst (fst (onCatch data l s)) = Continue.
Proof.
  unfold onCatch, markFirstToken. destruct (hasReceivedFirstToken l); reflexivity.
Qed.

Lemma onPayload_ctl (data : string) (l : Locals) (s : ChatState) :
  data <> "[DONE]" ->
  fst (fst (onPayload JSON_parse data l s))
  = if isTerminal JSON_parse data then Break else Continue.
Proof.
  intros Hd. apply String.eqb_neq in Hd.
  unfold isTerminal, onPayload. rewrite Hd.
  destruct (JSON_parse data) as [parsed|]; [|apply onCatch_ctl].
  destruct parsed; try apply dispatch_ctl; apply onCatch_ctl.
Qed.

(** The buffer plays no part in what an event does; an event that lets
    the loop go on leaves it as it is. *)
Lemma dispatch_set_buffer (parsed : JValue) (b : string) (l : Locals)
  (s : ChatState) :
  dispatch parsed (set_buffer b l) s
  = match dispatch parsed l s with
    | (Break, l1, s1) => (Break, l1, s1)
    | (Continue, l1, s1) => (Continue, set_buffer b l1, s1)
    end.
Proof.
  by_type parsed;
    unfold onToken, onToolStart, onToolEnd, onSource, onTitleUpdate, onError,
      markFirstToken; simpl;
    repeat match goal with
           | |- context [if ?c then _ else _] => destruct c
           end;
    reflexivity.
Qed.

Lemma onCatch_set_buffer (data b : string) (l : Locals) (s : ChatState) :
  onCatch data (set_buffer b l) s
  = match onCatch data l s with
    | (Break, l1, s1) => (Break, l1, s1)
    | (Continue, l1, s1) => (Continue, set_buffer b l1, s1)
    end.
Proof.
  unfold onCatch, markFirstToken. simpl.
  destruct (hasReceivedFirstToken l); reflexivity.
Qed.

Lemma onPayload_set_buffer (data b : string) (l : Locals) (s : ChatState) :
  onPayload JSON_parse data (set_buffer b l) s
  = match onPayload JSON_parse data l s with
    | (Break, l1, s1) => (Break, l1, s1)
    | (Continue, l1, s1) => (Continue, set_buffer b l1, s1)
    end.
Proof.
  unfold onPayload.
  destruct (JSON_parse data) as [parsed|]; [|apply onCatch_set_buffer].
  destruct parsed; try apply dispatch_set_buffer; apply onCatch_set_buffer.
Qed.

(** The loop over the lines is the loop over their frames. *)
Lemma forLines_forFrames (lines : list string) :
  forall (l : Locals) (s : ChatState),
    forLines JSON_parse lines l s = forFrames JSON_parse (frames lines) l s.
Proof.
  induction lines as [|rawLine rest IH]; intros l s; [reflexivity|].
  simpl. rewrite processLine_frameOf.
  destruct (frameOf rawLine) as [data|]; [|apply IH].
  simpl. destruct (String.eqb data "[DONE]"); [reflexivity|].
  destruct (onPayload JSON_parse data l s) as [[[|] l1] s1]; [apply IH|reflexivity].
Qed.

Lemma nonTerminal_continues (data : string) (l : Locals) (s : ChatState) :
  nonTerminal JSON_parse data ->
  String.eqb data "[DONE]" = false
  /\ exists l1 s1, onPayload JSON_parse data l s = (Continue, l1, s1).
Proof.
  intros Hn.
  assert (Hd : String.eqb data "[DONE]" = false).
  { unfold nonTerminal, isTerminal in Hn.
    destruct (String.eqb data "[DONE]"); [discriminate|reflexivity]. }
  split; [exact Hd|].
  pose proof (@onPayload_ctl data l s) as Hc.
  rewrite Hn in Hc.
  destruct (onPayload JSON_parse data l s) as [[c l1] s1]. simpl in Hc.
  rewrite Hc; [eauto|]. apply String.eqb_neq. exact Hd.
Qed.

Lemma forFrames_app (a b : list string) :
  Forall (nonTerminal JSON_parse) a ->
  forall (l : Locals) (s : ChatState),
    forFrames JSON_parse (a ++ b) l s
    = let '(l1, s1) := forFrames JSON_parse a l s in
      forFrames JSON_parse b l1 s1.
Proof.
  induction 1 as [|data a Hn _ IH]; intros l s; simpl.
  - destruct (forFrames JSON_parse b l s); reflexivity.
  - destruct (nonTerminal_continues l s Hn) as (-> & l1 & s1 & ->). apply IH.
Qed.

Lemma forFrames_set_buffer (datas : list string) (b : string) :
  Forall (nonTerminal JSON_parse) datas ->
  forall (l : Locals) (s : ChatState),
    forFrames JSON_parse datas (set_buffer b l) s
    = let '(l1, s1) := forFrames JSON_parse datas l s in (set_buffer b l1, s1).
Proof.
  induction 1 as [|data datas Hn _ IH]; intros l s; simpl; [reflexivity|].
  destruct (nonTerminal_continues l s Hn) as (Hd & l1 & s1 & Hrun).
  rewrite Hd, onPayload_set_buffer, Hrun. apply IH.
Qed.

Lemma splitLines_closed (text : string) :
  completeLines text = [] -> splitLines text = [text].
Proof.
  unfold completeLines.
  induction text as [|c r IH]; [reflexivity|].
  simpl. pose proof (splitLines_nonempty r) as Hne.
  destruct (Ascii.eqb c newline).
  - destruct (splitLines r); [contradiction|discriminate].
  - destruct (splitLines r) as [|h t] eqn:Hr; [contradiction|].
    destruct t; [|discriminate].
    intros _. specialize (IH eq_refl). inversion IH; reflexivity.
Qed.

Lemma last_behind {A : Type} (xs ys : list A) (d : A) :
  ys <> [] -> last (xs ++ ys) d = last ys d.
Proof.
  intros Hne. induction xs as [|x xs IH]; [reflexivity|].
  simpl. rewrite IH. destruct (xs ++ ys)%list eqn:Happ; [|reflexivity].
  apply app_eq_nil in Happ as [_ ->]. contradiction.
Qed.

Lemma splitLines_last_app (a b : string) :
  last (splitLines (a ++ b)) ""
  = last (splitLines (last (splitLines a) "" ++ b)) "".
Proof.
  rewrite splitLines_app.
  apply last_behind, splitLines_nonempty.
Qed.

(** The whole read of a stream without a terminal frame: the frames of
    the whole text are processed in order, and what follows the last
    line feed stays in the buffer. *)
Lemma readLoop_by_frames (chunks : list string) :
  forall (l : Locals) (s : ChatState),
    completeLines (buffer l) = [] ->
    Forall (nonTerminal JSON_parse) (frames (completeLines (buffer l ++ joinAll chunks))) ->
    readLoop JSON_parse chunks l s
    = let '(l1, s1) :=
        forFrames JSON_parse
                  (frames (completeLines (buffer l ++ joinAll chunks))) l s in
      (set_buffer (last (splitLines (buffer l ++ joinAll chunks)) "") l1, s1).
Proof.
  induction chunks as [|value more IH]; intros l s Hbuf Hall.
  - simpl. rewrite append_nil_r, Hbuf, (splitLines_closed _ Hbuf). simpl.
    destruct l; reflexivity.
  - simpl joinAll in *.
    rewrite <- append_assoc in *.
    rewrite (completeLines_app (buffer l ++ value) (joinAll more)), frames_app
      in Hall.
    apply Forall_app in Hall as [Ha Hb].
    rewrite (completeLines_app (buffer l ++ value) (joinAll more)), frames_app,
      (forFrames_app _ Ha).
    rewrite (splitLines_last_app (buffer l ++ value) (joinAll more)).
    simpl readLoop. unfold onChunk.
    fold (completeLines (buffer l ++ value)).
    rewrite forLines_forFrames, (forFrames_set_buffer _ Ha).
    destruct (forFrames JSON_parse (frames (completeLines (buffer l ++ value))) l s)
      as [la sa].
    rewrite IH; simpl buffer.
    + rewrite (forFrames_set_buffer _ Hb).
      destruct (forFrames JSON_parse _ la sa) as [lb sb]. reflexivity.
    + apply completeLines_last.
    + exact Hb.
Qed.

End FrameFacts.

Section StreamText.

Variable JSON_parse : string -> option JValue.

(** X1. As long as no frame of the stream is terminal (the sentinel, an
    [error] or a [done] event), only the text of the stream counts, not
    the chunks it arrives in: two streams with the same text leave the
    same store and the same locals. *)
Theorem X1_the_cut_into_chunks_is_irrelevant
  (chunks1 chunks2 : list string) (s : ChatState) :
  joinAll chunks1 = joinAll chunks2 ->
  Forall (nonTerminal JSON_parse) (framesOf chunks1) ->
  readLoop JSON_parse chunks1 fresh s = readLoop JSON_parse chunks2 fresh s.
Proof.
  intros Htext Hall. unfold framesOf in Hall.
  rewrite (@readLoop_by_frames JSON_parse chunks1 fresh s eq_refl Hall).
  rewrite Htext in Hall.
  rewrite (@readLoop_by_frames JSON_parse chunks2 fresh s eq_refl Hall).
  simpl. rewrite Htext. reflexivity.
Qed.

(** X2. Only the frames count: two lists of lines with the same frames
    (the same [data:] payloads that are not empty, in the same order)
    are processed alike, whatever blank lines, comments or other fields
    stand between them. *)
Theorem X2_only_the_frames_count
  (lines1 lines2 : list string) (l : Locals) (s : ChatState) :
  frames lines1 = frames lines2 ->
  forLines JSON_parse lines1 l s = forLines JSON_parse lines2 l s.
Proof.
  intros Hsame. rewrite !forLines_forFrames, Hsame. reflexivity.
Qed.

Lemma onPayload_buffer (data : string) (l : Locals) (s : ChatState) :
  match onPayload JSON_parse data l s with
  | (Break, l1, _) => buffer l1 = ""
  | (Continue, l1, _) => buffer l1 = buffer l
  end.
Proof.
  pose proof (onPayload_set_buffer JSON_parse data (buffer l) l s) as Hset.
  assert (Hl : set_buffer (buffer l) l = l) by (destruct l; reflexivity).
  rewrite Hl in Hset.
  destruct (onPayload JSON_parse data l s) as [[[|] l1] s1] eqn:Hrun.
  - inversion Hset as [Heq]. rewrite Heq at 1. reflexivity.
  - clear Hset Hl. revert Hrun.
    unfold onPayload, onCatch, markFirstToken.
    destruct (JSON_parse data) as [parsed|].
    + unfold dispatch, onToken, onToolStart, onToolEnd, onSource,
        onTitleUpdate, onError, markFirstToken.
      destruct parsed; destruct (hasReceivedFirstToken l);
        repeat match goal with
               | |- context [if ?b then _ else _] => destruct b
               end;
        intros H; inversion H; reflexivity.
    + destruct (hasReceivedFirstToken l); discriminate.
Qed.

(** After any lines the buffer is what it was, or empty. *)
Lemma forFrames_buffer (datas : list string) :
  forall (l : Locals) (s : ChatState),
    buffer (fst (forFrames JSON_parse datas l s)) = buffer l
    \/ buffer (fst (forFrames JSON_parse datas l s)) = "".
Proof.
  induction datas as [|data rest IH]; intros l s; simpl; [auto|].
  destruct (String.eqb data "[DONE]"); [auto|].
  pose proof (onPayload_buffer data l s) as Hb.
  destruct (onPayload JSON_parse data l s) as [[[|] l1] s1]; simpl; [|auto].
  rewrite <- Hb. apply IH.
Qed.

(** The buffer never holds a closed line. *)
Lemma onChunk_buffer_open (value : string) (l : Locals) (s : ChatState) :
  completeLines (buffer (fst (onChunk JSON_parse value l s))) = [].
Proof.
  unfold onChunk. rewrite forLines_forFrames.
  destruct (forFrames_buffer
              (frames (removelast (splitLines (buffer l ++ value))))
              (set_buffer (last (splitLines (buffer l ++ value)) "") l) s)
    as [-> | ->].
  - apply completeLines_last.
  - reflexivity.
Qed.

Lemma readLoop_buffer_open (chunks : list string) :
  forall (l : Locals) (s : ChatState),
    completeLines (buffer l) = [] ->
    completeLines (buffer (fst (readLoop JSON_parse chunks l s))) = [].
Proof.
  induction chunks as [|value more IH]; intros l s Hbuf; simpl; [exact Hbuf|].
  pose proof (onChunk_buffer_open value l s) as Hopen.
  destruct (onChunk JSON_parse value l s) as [l1 s1]. apply IH. exact Hopen.
Qed.

Lemma readLoop_app (a b : list string) :
  forall (l : Locals) (s : ChatState),
    readLoop JSON_parse (a ++ b) l s
    = let '(l1, s1) := readLoop JSON_parse a l s in readLoop JSON_parse b l1 s1.
Proof.
  induction a as [|value more IH]; intros l s; simpl.
  - destruct (readLoop JSON_parse b l s); reflexivity.
  - destruct (onChunk JSON_parse value l s) as [l1 s1]. apply IH.
Qed.

Lemma completeLines_cons (c : ascii) (r : string) :
  completeLines (String c r) = []
  <-> Ascii.eqb c newline = false /\ completeLines r = [].
Proof.
  unfold completeLines. simpl.
  pose proof (splitLines_nonempty r) as Hne.
  destruct (Ascii.eqb c newline);
    destruct (splitLines r) as [|h [|h2 t]]; try contradiction; simpl;
    intuition discriminate.
Qed.

(** A text without a line feed behind another one closes no line. *)
Lemma completeLines_open_app (a b : string) :
  completeLines a = [] -> completeLines b = [] -> completeLines (a ++ b) = [].
Proof.
  intros Ha Hb. induction a as [|c r IH]; [exact Hb|].
  apply completeLines_cons in Ha as [Hc Hr].
  simpl append. apply completeLines_cons. auto.
Qed.

(** X3. What the stream ends with after its last line feed is never
    processed: a last chunk without a line feed, even a whole frame,
    leaves the store as it was. *)
Theorem X3_an_unclosed_last_line_is_dropped
  (chunks : list string) (tail : string) (s : ChatState) :
  completeLines tail = [] ->
  snd (readLoop JSON_parse (chunks ++ [tail]) fresh s)
  = snd (readLoop JSON_parse chunks fresh s).
Proof.
  intros Htail. rewrite readLoop_app.
  pose proof (@readLoop_buffer_open chunks fresh s eq_refl) as Hopen.
  destruct (readLoop JSON_parse chunks fresh s) as [l1 s1]. simpl in Hopen.
  simpl. unfold onChunk.
  pose proof (completeLines_open_app _ _ Hopen Htail) as Hnone.
  unfold completeLines in Hnone. rewrite Hnone. reflexivity.
Qed.

(** X4. A payload that is JSON but no event changes nothing: a number, a
    string, a boolean, an array, or an object whose [type] is missing,
    is no string or is none of the seven types.  The exception is the
    JSON [null]: reading its [type] throws, and it is appended to the
    streamed text as it was written, like a payload that is not JSON. *)
Theorem X4_json_that_is_no_event
  (rawLine : string) (parsed : JValue) (l : Locals) (s : ChatState) :
  decodesTo JSON_parse rawLine parsed ->
  (parsed <> JNull -> parsed <> JUndefined ->
   (forall ty, field "type" parsed = JStr ty -> knownType ty = false) ->
   processLine JSON_parse rawLine l s = (Continue, l, s))
  /\ (parsed = JNull ->
      exists data,
        frameOf rawLine = Some data
        /\ fst (fst (processLine JSON_parse rawLine l s)) = Continue
        /\ streamingMessage (snd (processLine JSON_parse rawLine l s))
           = streamingMessage s ++ data).
Proof.
  intros Hd. pose proof (processLine_decodesTo l s Hd) as Hline.
  split.
  - intros Hnull Hundef Hty. rewrite Hline.
    assert (Hrun : dispatch parsed l s = (Continue, l, s)).
    { unfold dispatch.
      destruct (field "type" parsed) as [| | |?|ty| |] eqn:Hf; try reflexivity.
      specialize (Hty ty eq_refl). unfold knownType in Hty. simpl in Hty.
      simpl.
      repeat match goal with
             | |- context [String.eqb ty ?lit] =>
                 destruct (String.eqb ty lit); [discriminate Hty|]
             end.
      reflexivity. }
    destruct parsed; try exact Hrun; contradiction.
  - intros ->. destruct Hd as (data & Hf & _ & _).
    exists data. rewrite Hline, Hf. split; [reflexivity|].
    unfold onCatch, markFirstToken.
    destruct (hasReceivedFirstToken l); split; reflexivity.
Qed.

End StreamText.

(** * What a stream keeps *)

Section StreamInvariant.

Variable JSON_parse : string -> option JValue.

(** A relation between the store before and after that every event and
    the [catch] block respect is respected by a whole stream. *)
Variable R : ChatState -> ChatState -> Prop.
Hypothesis R_refl : forall s, R s s.
Hypothesis R_trans : forall s1 s2 s3, R s1 s2 -> R s2 s3 -> R s1 s3.
Hypothesis R_dispatch : forall parsed l s, R s (snd (dispatch parsed l s)).
Hypothesis R_catch : forall data l s, R s (snd (onCatch data l s)).

Lemma processLine_keeps (rawLine : string) (l : Locals) (s : ChatState) :
  R s (snd (processLine JSON_parse rawLine l s)).
Proof.
  rewrite processLine_frameOf.
  destruct (frameOf rawLine) as [data|]; [|apply R_refl].
  destruct (String.eqb data "[DONE]"); [apply R_refl|].
  unfold onPayload.
  destruct (JSON_parse data) as [parsed|]; [|apply R_catch].
  destruct parsed; try apply R_dispatch; apply R_catch.
Qed.

Lemma forLines_keeps (lines : list string) :
  forall (l : Locals) (s : ChatState),
    R s (snd (forLines JSON_parse lines l s)).
Proof.
  induction lines as [|rawLine rest IH]; intros l s; simpl; [apply R_refl|].
  pose proof (processLine_keeps rawLine l s) as Hline.
  destruct (processLine JSON_parse rawLine l s) as [[[|] l1] s1]; simpl in *.
  - eapply R_trans; [exact Hline|apply IH].
  - exact Hline.
Qed.

Lemma readLoop_keeps (chunks : list string) :
  forall (l : Locals) (s : ChatState),
    R s (snd (readLoop JSON_parse chunks l s)).
Proof.
  induction chunks as [|value more IH]; intros l s; simpl; [apply R_refl|].
  pose proof (forLines_keeps
                (removelast (splitLines (buffer l ++ value)))
                (set_buffer (last (splitLines (buffer l ++ value)) "") l) s)
    as Hchunk.
  unfold onChunk.
  destruct (forLines JSON_parse _ _ s) as [l1 s1]. simpl in Hchunk.
  eapply R_trans; [exact Hchunk|apply IH].
Qed.

End StreamInvariant.

Section SessionKept.

Lemma withTitle_same (c : Chat.t) : c = Chat.withTitle (Chat.title c) c.
Proof. destruct c; reflexivity. Qed.

Lemma retitled_refl (cs : list Chat.t) :
  Forall2 (fun c c' => exists v, c' = Chat.withTitle v c) cs cs.
Proof.
  induction cs as [|c cs IH]; constructor; [|exact IH].
  exists (Chat.title c). apply withTitle_same.
Qed.

Lemma retitled_trans (xs : list Chat.t) :
  forall ys zs,
    Forall2 (fun c c' => exists v, c' = Chat.withTitle v c) xs ys ->
    Forall2 (fun c c' => exists v, c' = Chat.withTitle v c) ys zs ->
    Forall2 (fun c c' => exists v, c' = Chat.withTitle v c) xs zs.
Proof.
  induction xs as [|x xs IH]; intros ys zs Hxy Hyz.
  - inversion Hxy; subst. inversion Hyz; subst. constructor.
  - inversion Hxy as [|? y ? ys' [v1 Hy] Hrest]; subst.
    inversion Hyz as [|? z ? zs' [v2 Hz] Hrest']; subst.
    constructor.
    + exists v2. reflexivity.
    + eapply IH; eassumption.
Qed.

Lemma retitled_map (f : Chat.t -> bool) (v : JValue) (cs : list Chat.t) :
  Forall2 (fun c c' => exists v, c' = Chat.withTitle v c) cs
          (map (fun c => if f c then Chat.withTitle v c else c) cs).
Proof.
  induction cs as [|c cs IH]; simpl; constructor; [|exact IH].
  destruct (f c); [eauto|]. exists (Chat.title c). apply withTitle_same.
Qed.

Lemma sessionKept_refl (s : ChatState) : sessionKept s s.
Proof. repeat split. apply retitled_refl. Qed.

Lemma sessionKept_trans (s1 s2 s3 : ChatState) :
  sessionKept s1 s2 -> sessionKept s2 s3 -> sessionKept s1 s3.
Proof.
  intros (Hm & Ha & Hh & Hl & Hc) (Hm' & Ha' & Hh' & Hl' & Hc').
  repeat split; try congruence. eapply retitled_trans; eassumption.
Qed.

Lemma dispatch_sessionKept (parsed : JValue) (l : Locals) (s : ChatState) :
  sessionKept s (snd (dispatch parsed l s)).
Proof.
  unfold dispatch, onToken, onToolStart, onToolEnd, onSource, onTitleUpdate,
    onError, markFirstToken.
  destruct (hasReceivedFirstToken l);
    repeat match goal with
           | |- context [if ?b then _ else _] => destruct b
           end;
    repeat split; simpl; try apply retitled_refl; apply retitled_map.
Qed.

Lemma onCatch_sessionKept (data : string) (l : Locals) (s : ChatState) :
  sessionKept s (snd (onCatch data l s)).
Proof.
  unfold onCatch, markFirstToken.
  destruct (hasReceivedFirstToken l); repeat split; apply retitled_refl.
Qed.

Lemma stream_sessionKept (JSON_parse : string -> option JValue)
  (chunks : list string) (l : Locals) (s : ChatState) :
  sessionKept s (snd (readLoop JSON_parse chunks l s)).
Proof.
  apply readLoop_keeps.
  - apply sessionKept_refl.
  - apply sessionKept_trans.
  - apply dispatch_sessionKept.
  - apply onCatch_sessionKept.
Qed.

(** X5. Whatever a stream holds, reading it never writes the window,
    the active chat, [hasMoreMessages] or [isLoadingMore], and of the
    chat list it can only change titles: the chats stay the same in
    number, order, id and dates. *)
Theorem X5_a_stream_keeps_the_session
  (JSON_parse : string -> option JValue)
  (chunks : list string) (l : Locals) (s : ChatState) :
  let s' := snd (readLoop JSON_parse chunks l s) in
  messages s' = messages s
  /\ activeChatId s' = activeChatId s
  /\ hasMoreMessages s' = hasMoreMessages s
  /\ isLoadingMore s' = isLoadingMore s
  /\ map Chat.id (chats s') = map Chat.id (chats s)
  /\ map Chat.created_at (chats s') = map Chat.created_at (chats s)
  /\ map Chat.updated_at (chats s') = map Chat.updated_at (chats s).
Proof.
  destruct (stream_sessionKept JSON_parse chunks l s)
    as (Hm & Ha & Hh & Hl & Hc).
  simpl. repeat split; try assumption;
    induction Hc as [|c c' cs cs' [v ->] _ IH]; simpl; congruence.
Qed.


End SessionKept.

(** * The tools of a turn *)

Section ToolFacts.










(** X8. A tool's citations reach it in either order.  For a name that is
    a string and not empty, the [tool_start] of the name followed by the
    [source] of the name, and the [source] followed by the [tool_start],
    leave the same store and the same pending citations. *)
Theorem X8_source_and_tool_start_commute
  (start source : JValue) (n : string) (l : Locals) (s : ChatState) :
  field "type" start = JStr "tool_start" ->
  field "type" source = JStr "source" ->
  toolNameOf start = JStr n ->
  toolNameOf source = JStr n ->
  n <> "" ->
  (let '(_, l1, s1) := dispatch start l s in dispatch source l1 s1)
  = (let '(_, l1, s1) := dispatch source l s in dispatch start l1 s1).
Proof.
  intros Hstart Hsource Hn1 Hn2 Hne.
  apply String.eqb_neq in Hne.
  unfold dispatch. rewrite Hstart, Hsource. simpl.
  unfold onToolStart, onSource. rewrite Hn1, Hn2. simpl. rewrite Hne. simpl.
  rewrite String.eqb_refl. simpl.
  rewrite map_app. simpl. rewrite String.eqb_refl. reflexivity.
Qed.

End ToolFacts.

(** * The pending indicator and the failures of the post *)

Section Pending.

Variable JSON_parse : string -> option JValue.





(** X10. When the post is refused (a status that is not ok and not 401),
    no stream is read, the pending indicator is switched off, and the
    text shown is the text worked out from the answer, or [Request
    failed.] when that is empty, whatever was streamed before; the
    fallback [Stream failed] of the thrown error is never shown.  After
    a 401 the text shown is what was there, or [Unauthorized].  In both
    cases the window keeps the user's message and gets no assistant
    message. *)
Theorem X10_a_refused_post
  (errText : string) (s : ChatState) :
  (let '(s', turn) := sendMessage_answer (Refused errText) s in
   turn = None
   /\ isLoading s' = false
   /\ streamingMessage s' = orElse errText "Request failed."
   /\ streamingMessage s' <> ""
   /\ messages s' = messages s)
  /\ (let '(s', turn) := sendMessage_answer Unauthorized s in
      turn = None
      /\ isLoading s' = false
      /\ streamingMessage s' = orElse (streamingMessage s) "Unauthorized"
      /\ streamingMessage s' <> ""
      /\ messages s' = messages s).
Proof.
  split; simpl; unfold sendMessage_catch, orElse; simpl.
  - destruct (String.eqb errText "") eqn:He; simpl.
    + repeat split. discriminate.
    + rewrite He. repeat split. apply String.eqb_neq. exact He.
  - destruct (String.eqb (streamingMessage s) "") eqn:He.
    + repeat split. discriminate.
    + repeat split. apply String.eqb_neq. exact He.
Qed.

End Pending.

(** * The window after a first page or a refresh *)

Section Dedup.






End Dedup.

(** * Pagination: one request at a time, and the same page twice *)

Section PagingFacts.

Import Session.

Variable JSON_parse : string -> option JValue.
Variable encodeURIComponent : string -> string.

Lemma exec_one_request (lab : Label) (x x' : Session.t) :
  exec JSON_parse encodeURIComponent lab x = Some x' ->
  (loading x = []
   \/ ((exists req, loading x = [req]) /\ isLoadingMore (store x) = true)) ->
  loading x' = []
  \/ ((exists req, loading x' = [req]) /\ isLoadingMore (store x') = true).
Proof.
  intros Hexec Hinv.
  assert (Hkept : loading x' = loading x ->
                  isLoadingMore (store x') = isLoadingMore (store x) ->
                  loading x' = []
                  \/ ((exists req, loading x' = [req])
                      /\ isLoadingMore (store x') = true)).
  { intros -> ->. exact Hinv. }
  destruct lab; simpl in Hexec.
  - unfold loadMoreMessages_begin in Hexec.
    destruct (chatIdOf (activeChatId (store x))) as [c|];
      [|inversion Hexec; subst; apply Hkept; reflexivity].
    destruct (hasMoreMessages (store x)); simpl in Hexec;
      [|inversion Hexec; subst; apply Hkept; reflexivity].
    destruct (isLoadingMore (store x)) eqn:Hbusy; simpl in Hexec;
      [inversion Hexec; subst; apply Hkept; simpl; auto|].
    inversion Hexec; subst; simpl. right.
    destruct Hinv as [-> | (_ & Htrue)]; [simpl; eauto|congruence].
  - destruct (take i (loading x)) as [[req rest]|] eqn:Ht; [|discriminate].
    inversion Hexec; subst; simpl. left.
    destruct Hinv as [Hnone | ((req0 & Hone) & _)].
    + rewrite Hnone in Ht. destruct i; discriminate.
    + apply take_length in Ht. rewrite Hone in Ht.
      destruct rest; [reflexivity|discriminate].
  - destruct (chatIdOf (activeChatId (store x))); [|discriminate].
    inversion Hexec; subst. apply Hkept; reflexivity.
  - destruct (posting x); [discriminate|].
    pose proof (sendMessage_answer_paging a (store x)) as [_ Ha].
    destruct (sendMessage_answer a (store x)) as [s1 l1].
    inversion Hexec; subst. apply Hkept; [reflexivity|exact Ha].
  - destruct (nth_error (turns x) i) as [l|]; [|discriminate].
    pose proof (onChunk_paging JSON_parse value l (store x)) as [_ Hc].
    destruct (onChunk JSON_parse value l (store x)) as [l1 s1].
    inversion Hexec; subst. apply Hkept; [reflexivity|exact Hc].
  - destruct (take i (turns x)) as [[l rest]|]; [|discriminate].
    inversion Hexec; subst. apply Hkept; reflexivity.
  - destruct (take i (turns x)) as [[l rest]|]; [|discriminate].
    inversion Hexec; subst. apply Hkept; reflexivity.
  - destruct (take i (refreshing x)) as [[c rest]|]; [|discriminate].
    inversion Hexec; subst. apply Hkept; [reflexivity|].
    destruct r; reflexivity.
  - inversion Hexec; subst. apply Hkept; reflexivity.
  - destruct (take i (switching x)) as [[c rest]|]; [|discriminate].
    inversion Hexec; subst. apply Hkept; [reflexivity|].
    destruct r; reflexivity.
Qed.

(** X12. At most one page request is in flight, whatever happens in
    between: page triggers and answers, messages sent and streamed,
    refreshes, and switches to other chats.  While one is in flight
    [isLoadingMore] is true, so every further trigger returns at the
    guard. *)
Theorem X12_one_page_request_at_a_time
  (labs : list Label) (x x' : Session.t) :
  loading x = [] ->
  run JSON_parse encodeURIComponent labs x = Some x' ->
  (length (loading x') <= 1)%nat
  /\ (loading x' <> [] -> isLoadingMore (store x') = true)
  /\ (loading x' <> [] ->
      exec JSON_parse encodeURIComponent LoadMore x' = Some x').
Proof.
  intros Hquiet Hrun.
  assert (Hinv : loading x' = []
                 \/ ((exists req, loading x' = [req])
                     /\ isLoadingMore (store x') = true)).
  { assert (H0 : loading x = []
                 \/ ((exists req, loading x = [req])
                     /\ isLoadingMore (store x) = true)) by (left; exact Hquiet).
    clear Hquiet. revert x H0 Hrun.
    induction labs as [|lab more IH]; intros x H0 Hrun; simpl in Hrun.
    - inversion Hrun; subst. exact H0.
    - destruct (exec JSON_parse encodeURIComponent lab x) as [x1|] eqn:Hexec;
        [|discriminate].
      apply (IH x1); [|exact Hrun]. eapply exec_one_request; eassumption. }
  destruct Hinv as [Hnone | ((req & Hone) & Hbusy)].
  - rewrite Hnone. simpl. split; [lia|]. split; intros H; contradiction.
  - rewrite Hone. simpl. split; [lia|]. split; intros _; [exact Hbusy|].
    unfold loadMoreMessages_begin. rewrite Hbusy, orb_true_r.
    destruct (chatIdOf (activeChatId (store x'))); destruct x'; reflexivity.
Qed.

(** X13. Merging a page changes nothing when all its ids are in the
    window already; so the same page merged a second time (an answer
    that arrives twice) adds no message, whatever the page and the
    window. *)
Theorem X13_a_page_merged_twice_adds_nothing (p : Page) (s : ChatState) :
  ((forall m, In m (page_messages p) ->
              In (Message.id m) (map Message.id (messages s))) ->
   messages (loadMoreMessages_resume (Ok p) s) = messages s)
  /\ messages (loadMoreMessages_resume (Ok p) (loadMoreMessages_resume (Ok p) s))
     = messages (loadMoreMessages_resume (Ok p) s).
Proof.
  assert (Hnone : forall w,
             (forall m, In m (page_messages p) ->
                        In (Message.id m) (map Message.id w)) ->
             newOnes w (page_messages p) = []).
  { intros w Hall. unfold newOnes.
    induction (page_messages p) as [|m ms IH]; [reflexivity|].
    simpl. assert (Hm : hasId w (Message.id m) = true)
      by (apply hasId_In, Hall; left; reflexivity).
    rewrite Hm. simpl. apply IH. intros m' Hm'. apply Hall. right. exact Hm'. }
  split.
  - intros Hall. rewrite merged_window, (Hnone _ Hall). reflexivity.
  - rewrite (merged_window p (loadMoreMessages_resume (Ok p) s)).
    rewrite Hnone; [reflexivity|].
    intros m Hm. rewrite merged_window, map_app. apply in_or_app.
    destruct (hasId (messages s) (Message.id m)) eqn:Hid.
    + right. apply hasId_In. exact Hid.
    + left. apply in_map. apply newOnes_In. split; [exact Hm|].
      rewrite <- hasId_In, Hid. discriminate.
Qed.

(** X14. [setActiveChat] does not reset [isLoadingMore].  So when the
    chat is switched while a page request is unanswered, the new chat
    cannot page: until that answer arrives, [loadMoreMessages] returns
    at the guard, whatever the first page of the new chat was. *)
Theorem X14_a_switch_keeps_pagination_blocked
  (id : string) (r : Fetched) (s : ChatState) :
  isLoadingMore s = true ->
  let s' := setActiveChat_resume r (setActiveChat_begin id s) in
  isLoadingMore s' = true
  /\ activeChatId s' = Some id
  /\ loadMoreMessages_begin encodeURIComponent s' = (s', None).
Proof.
  intros Hbusy s'.
  assert (Hb : isLoadingMore s' = true) by (destruct r; exact Hbusy).
  split; [exact Hb|]. split; [destruct r; reflexivity|].
  unfold loadMoreMessages_begin. rewrite Hb, orb_true_r.
  destruct (chatIdOf (activeChatId s')); reflexivity.
Qed.

End PagingFacts.

(** * The chat list *)

Section ChatList.

Import Chats.

Variable encodeURIComponent : string -> string.

(** X15. Deleting a chat removes exactly the chats of that id from the
    list and never touches the streamed text, the tools or the flags.
    Deleting the active chat also empties the window and leaves no chat
    active: pagination then asks nothing, and a stream that is still
    being read ends in an assistant message alone in the window, with no
    refresh.  Deleting another chat leaves window and active chat as
    they were. *)
Theorem X15_delete_chat (id : string) (s : ChatState) :
  let s' := deleteChat_resume id s in
  (forall c, In c (chats s') <-> In c (chats s) /\ Chat.id c <> id)
  /\ streamingMessage s' = streamingMessage s
  /\ activeTools s' = activeTools s
  /\ isLoading s' = isLoading s
  /\ hasMoreMessages s' = hasMoreMessages s
  /\ isLoadingMore s' = isLoadingMore s
  /\ (activeChatId s = Some id ->
      activeChatId s' = None
      /\ messages s' = []
      /\ loadMoreMessages_begin encodeURIComponent s' = (s', None)
      /\ forall k, exists m,
           messages (fst (sendMessage_finish k s')) = [m]
           /\ Message.content m = streamingMessage s
           /\ snd (sendMessage_finish k s') = None)
  /\ (activeChatId s <> Some id ->
      activeChatId s' = activeChatId s /\ messages s' = messages s).
Proof.
  simpl. split.
  - intros c. unfold deleteChat_resume. simpl. rewrite filter_In.
    destruct (String.eqb_spec (Chat.id c) id); simpl; intuition congruence.
  - repeat split.
    + unfold deleteChat_resume, isActive. rewrite H, String.eqb_refl. reflexivity.
    + unfold deleteChat_resume, isActive. rewrite H, String.eqb_refl. reflexivity.
    + unfold loadMoreMessages_begin, deleteChat_resume, isActive.
      rewrite H, String.eqb_refl. reflexivity.
    + intros k. unfold sendMessage_finish, deleteChat_resume, isActive.
      rewrite H, String.eqb_refl. simpl. eexists. repeat split.
    + unfold deleteChat_resume, isActive.
      destruct (activeChatId s) as [a|]; [|reflexivity].
      destruct (String.eqb_spec a id); [subst; contradiction|reflexivity].
    + unfold deleteChat_resume, isActive.
      destruct (activeChatId s) as [a|]; [|reflexivity].
      destruct (String.eqb_spec a id); [subst; contradiction|reflexivity].
Qed.

(** X16. A chat created and then deleted leaves the chat list as it was,
    provided its id was new; but the chat that was active before is not
    active again: no chat is, and the window is empty. *)
Theorem X16_create_then_delete (newChat : Chat.t) (s : ChatState) :
  ~ In (Chat.id newChat) (map Chat.id (chats s)) ->
  let s' := deleteChat_resume (Chat.id newChat) (createChat_resume newChat s) in
  chats s' = chats s
  /\ activeChatId s' = None
  /\ messages s' = [].
Proof.
  intros Hnew. unfold deleteChat_resume, createChat_resume, isActive. simpl.
  rewrite String.eqb_refl. simpl. repeat split.
  induction (chats s) as [|c cs IH]; [reflexivity|].
  simpl in *. destruct (String.eqb_spec (Chat.id c) (Chat.id newChat)).
  - exfalso. apply Hnew. left. exact e.
  - simpl. f_equal. apply IH. intros Hin. apply Hnew. right. exact Hin.
Qed.

End ChatList.

(** * The base of the API *)

Section ApiBase.

Import Api.

Lemma endsWith_app (suffix a : string) : endsWith suffix (a ++ suffix) = true.
Proof.
  induction a as [|c r IH].
  - destruct suffix as [|c r]; cbn [endsWith append];
      rewrite String.eqb_refl; reflexivity.
  - cbn [endsWith append]. rewrite IH.
    destruct (String.eqb suffix (String c (r ++ suffix))); reflexivity.
Qed.

Lemma endsWith_api_stripped (base : string) :
  endsWith "/api" base = true -> stripSlashes base = base /\ base <> "".
Proof.
  induction base as [|c r IH]; [discriminate|].
  cbn [endsWith].
  destruct (String.eqb_spec "/api" (String c r)) as [Heq | _].
  - intros _. rewrite <- Heq. split; [reflexivity|discriminate].
  - intros Hr. destruct (IH Hr) as [Hs Hne]. split; [|discriminate].
    simpl. rewrite Hs. destruct r; [contradiction|reflexivity].
Qed.

Lemma stripSlashes_slash (u : string) :
  stripSlashes (u ++ "/") = stripSlashes u.
Proof.
  induction u as [|c r IH]; [reflexivity|].
  simpl. rewrite IH. reflexivity.
Qed.

(** X17. The base of the API always ends with [/api] and never with a
    slash, whatever the variable holds (nothing, the empty text, only
    slashes); normalising a base again changes nothing; and a slash more
    or less at the end of the variable makes no difference. *)
Theorem X17_api_base (raw : option string) :
  endsWith "/api" (getApiBase raw) = true
  /\ stripSlashes (getApiBase raw) = getApiBase raw
  /\ getApiBase (Some (getApiBase raw)) = getApiBase raw
  /\ (forall u, u <> "" -> raw = Some u ->
                getApiBase (Some (u ++ "/")) = getApiBase raw).
Proof.
  assert (Hends : endsWith "/api" (getApiBase raw) = true).
  { unfold getApiBase.
    destruct (endsWith "/api" (stripSlashes _)) eqn:He;
      [exact He|apply endsWith_app]. }
  destruct (endsWith_api_stripped _ Hends) as [Hstrip Hne].
  split; [exact Hends|]. split; [exact Hstrip|]. split.
  - unfold getApiBase at 1. unfold orElse.
    apply String.eqb_neq in Hne. rewrite Hne, Hstrip, Hends. reflexivity.
  - intros u Hu ->. unfold getApiBase, orElse.
    apply String.eqb_neq in Hu. rewrite Hu.
    destruct (String.eqb_spec (u ++ "/") "") as [He | _].
    + destruct u; discriminate.
    + rewrite stripSlashes_slash. reflexivity.
Qed.

End ApiBase.

(** * The callers: the input box and the line of sources *)

Section Callers.

Lemma trimStart_length (s : string) :
  (String.length (trimStart s) <= String.length s)%nat.
Proof.
  induction s as [|c r IH]; simpl; [lia|].
  destruct (isSpace c); simpl; lia.
Qed.

Lemma trimStart_head (c : ascii) (r : string) :
  trimStart (String c r) = String c r -> isSpace c = false.
Proof.
  simpl. destruct (isSpace c); [|reflexivity].
  intros H. pose proof (trimStart_length r) as Hlen.
  rewrite H in Hlen. simpl in Hlen. lia.
Qed.

Lemma trimStart_idempotent (s : string) :
  trimStart (trimStart s) = trimStart s.
Proof.
  induction s as [|c r IH]; [reflexivity|].
  simpl. destruct (isSpace c) eqn:Hc; [exact IH|].
  simpl. rewrite Hc. reflexivity.
Qed.

Lemma trimEnd_idempotent (s : string) : trimEnd (trimEnd s) = trimEnd s.
Proof.
  induction s as [|c r IH]; [reflexivity|].
  simpl. destruct (trimEnd r) as [|c' r'] eqn:Hr.
  - destruct (isSpace c) eqn:Hc; [reflexivity|].
    simpl. rewrite Hc. reflexivity.
  - cbn [trimEnd]. fold trimEnd. cbn [trimEnd] in IH. rewrite IH. reflexivity.
Qed.

Lemma trimStart_trimEnd (x : string) :
  trimStart x = x -> trimStart (trimEnd x) = trimEnd x.
Proof.
  destruct x as [|c r]; [reflexivity|].
  intros H. apply trimStart_head in H.
  simpl. rewrite H. destruct (trimEnd r); simpl; rewrite H; reflexivity.
Qed.

(** [trim] leaves a trimmed text as it is. *)
Lemma trim_idempotent (s : string) : trim (trim s) = trim s.
Proof.
  unfold trim.
  rewrite (@trimStart_trimEnd (trimStart s) (trimStart_idempotent s)).
  apply trimEnd_idempotent.
Qed.

Lemma length_positive (s : string) :
  (0 <? String.length s)%nat = negb (String.eqb s "").
Proof. destruct s; reflexivity. Qed.

(** X18. The send button of the input box is enabled exactly when
    [handleSend] would send.  What is sent is the text trimmed, with no
    white space left at either end; never while a turn is pending, and
    never an empty text without an attachment. *)
Theorem X18_input_box (text : string) (attachments : nat) (isLoading : bool) :
  (ChatInput.canSend text attachments isLoading = true
   <-> ChatInput.handleSend text attachments isLoading <> None)
  /\ forall message,
       ChatInput.handleSend text attachments isLoading = Some message ->
       message = trim text
       /\ trim message = message
       /\ isLoading = false
       /\ (message <> "" \/ attachments <> 0%nat).
Proof.
  unfold ChatInput.canSend, ChatInput.handleSend.
  rewrite length_positive.
  destruct (String.eqb_spec (trim text) "") as [He | Hne];
    destruct attachments as [|n]; destruct isLoading; simpl;
    (split; [split; [discriminate || congruence | try congruence; try discriminate]|]);
    try (intros message H; discriminate H);
    try (intros message H; inversion H; subst;
         repeat split; auto using trim_idempotent);
    try (intros H; exfalso; apply H; reflexivity).
Qed.


End Callers.

(** * White space around a line, and the lines behind a terminal frame *)

Section LineFacts.

Variable JSON_parse : string -> option JValue.

Lemma trimEnd_space (s : string) (c : ascii) :
  isSpace c = true -> trimEnd (s ++ String c "") = trimEnd s.
Proof.
  intros Hc. induction s as [|a r IH]; simpl.
  - rewrite Hc. reflexivity.
  - rewrite IH. reflexivity.
Qed.

Lemma trimStart_space (s : string) (c : ascii) :
  isSpace c = true ->
  trimStart (s ++ String c "")
  = match trimStart s with
    | EmptyString => EmptyString
    | x => x ++ String c ""
    end.
Proof.
  intros Hc. induction s as [|a r IH]; simpl.
  - rewrite Hc. reflexivity.
  - destruct (isSpace a); [exact IH|reflexivity].
Qed.

Lemma trim_space_behind (s : string) (c : ascii) :
  isSpace c = true -> trim (s ++ String c "") = trim s.
Proof.
  intros Hc. unfold trim. rewrite (@trimStart_space s c Hc).
  destruct (trimStart s) as [|a r] eqn:Hs; [reflexivity|].
  apply trimEnd_space. exact Hc.
Qed.

(** X20. White space around a line does not count: a line with a white
    space character in front or behind, in particular with the carriage
    return of a line that ended in CR LF, is the same frame, or is no
    frame, as without it. *)
Theorem X20_white_space_around_a_line
  (rawLine : string) (c : ascii) (l : Locals) (s : ChatState) :
  isSpace c = true ->
  frameOf (String c rawLine) = frameOf rawLine
  /\ frameOf (rawLine ++ String c "") = frameOf rawLine
  /\ processLine JSON_parse (rawLine ++ String c "") l s
     = processLine JSON_parse rawLine l s.
Proof.
  intros Hc.
  assert (Hfront : trim (String c rawLine) = trim rawLine)
    by (unfold trim; simpl; rewrite Hc; reflexivity).
  assert (Hbehind : frameOf (rawLine ++ String c "") = frameOf rawLine)
    by (unfold frameOf; rewrite (@trim_space_behind rawLine c Hc); reflexivity).
  split; [unfold frameOf; rewrite Hfront; reflexivity|].
  split; [exact Hbehind|].
  rewrite !processLine_frameOf, Hbehind. reflexivity.
Qed.


End LineFacts.

(** * Pagination: failures and short pages *)

Section PagingEdges.

Variable encodeURIComponent : string -> string.

(** X22. A page request that fails, by a status that is not ok or by an
    error of the network, leaves no trace: the store is exactly as it
    was before the trigger, so the same request can be made again. *)
Theorem X22_a_failed_page_fetch_leaves_no_trace
  (s s1 : ChatState) (req : Request) (r : Fetched) :
  loadMoreMessages_begin encodeURIComponent s = (s1, Some req) ->
  r = NotOk \/ r = Threw ->
  loadMoreMessages_resume r s1 = s
  /\ loadMoreMessages_begin encodeURIComponent (loadMoreMessages_resume r s1)
     = (s1, Some req).
Proof.
  intros Hbegin Hr.
  assert (Hback : loadMoreMessages_resume r s1 = s).
  { unfold loadMoreMessages_begin in Hbegin.
    destruct (chatIdOf (activeChatId s)); [|discriminate].
    destruct (hasMoreMessages s); [|discriminate].
    destruct (isLoadingMore s) eqn:Hbusy; [discriminate|].
    simpl in Hbegin. inversion Hbegin; subst.
    destruct Hr as [-> | ->]; destruct s; simpl in *; subst; reflexivity. }
  split; [exact Hback|]. rewrite Hback. exact Hbegin.
Qed.

(** X23. Without a flag from the server, pagination goes on exactly when
    the page is full: a page of ten messages or more keeps
    [hasMoreMessages] true, a page of fewer than ten (or none) sets it
    false, and then no further request is made. *)
Theorem X23_a_short_page_ends_pagination (msgs : list Message.t) (s : ChatState) :
  let s' := loadMoreMessages_resume (Ok (mkPage msgs None)) s in
  ((10 <= length msgs)%nat -> hasMoreMessages s' = true)
  /\ ((length msgs < 10)%nat ->
      hasMoreMessages s' = false
      /\ loadMoreMessages_begin encodeURIComponent s' = (s', None)).
Proof.
  assert (Hflag : hasMoreMessages
                    (loadMoreMessages_resume (Ok (mkPage msgs None)) s)
                  = (10 <=? length msgs)%nat)
    by (destruct msgs; reflexivity).
  cbv zeta. rewrite Hflag. split.
  - intros Hfull. apply Nat.leb_le. exact Hfull.
  - intros Hshort.
    assert (Hfalse : (10 <=? length msgs)%nat = false)
      by (apply Nat.leb_gt; exact Hshort).
    split; [exact Hfalse|].
    unfold loadMoreMessages_begin. rewrite Hflag, Hfalse. simpl.
    destruct (chatIdOf _); reflexivity.
Qed.

End PagingEdges.

(** * The further facts at work *)

(** A token, a tool and a second token, cut in the middle of a frame and
    cut line by line. *)
Lemma X1_witness :
  let lines :=
    [Demo.dataLine (Demo.token "Hel");
     Demo.dataLine (Demo.event [("type", "tool_start"); ("name", "search")]);
     Demo.dataLine (Demo.token "lo")] in
  let text := joinAll lines in
  readLoop Demo.parse [substring 0 20 text; substring 20 200 text] fresh
           (Demo.chatOpen "c1" [])
  = readLoop Demo.parse lines fresh (Demo.chatOpen "c1" []).
Proof.
  intros lines text.
  apply X1_the_cut_into_chunks_is_irrelevant.
  - reflexivity.
  - repeat constructor.
Defined.

(** With and without blank lines, a comment and an [event:] field. *)
Lemma X2_witness :
  forLines Demo.parse
    [""; ": keep-alive"; Demo.line (Demo.token "a"); ""; "event: message";
     Demo.line (Demo.token "b"); ""]
    fresh (Demo.chatOpen "c1" [])
  = forLines Demo.parse
      [Demo.line (Demo.token "a"); Demo.line (Demo.token "b")]
      fresh (Demo.chatOpen "c1" []).
Proof. apply X2_only_the_frames_count. reflexivity. Defined.

(** A last token whose line is not closed. *)
Lemma X3_witness :
  streamingMessage
    (snd (readLoop Demo.parse
            [Demo.dataLine (Demo.token "a"); Demo.line (Demo.token "b")]
            fresh (Demo.chatOpen "c1" [])))
  = "a".
Proof.
  change [Demo.dataLine (Demo.token "a"); Demo.line (Demo.token "b")]
    with ([Demo.dataLine (Demo.token "a")] ++ [Demo.line (Demo.token "b")])%list.
  rewrite X3_an_unclosed_last_line_is_dropped; reflexivity.
Defined.

(** An object without a type, and the JSON [null]. *)
Lemma X4_witness :
  processLine Demo.parse "data: {}" fresh (Demo.chatOpen "c1" [])
  = (Continue, fresh, Demo.chatOpen "c1" [])
  /\ streamingMessage
       (snd (processLine (fun text => if String.eqb text "null" then Some JNull
                                      else Demo.parse text)
                         "data: null" fresh (Demo.chatOpen "c1" [])))
     = "null".
Proof.
  split.
  - apply (@X4_json_that_is_no_event Demo.parse "data: {}" (JObj [])).
    + exists "{}". split; [reflexivity|]. split; [discriminate|reflexivity].
    + discriminate.
    + discriminate.
    + intros ty H. discriminate H.
  - destruct (@X4_json_that_is_no_event
                (fun text => if String.eqb text "null" then Some JNull
                             else Demo.parse text)
                "data: null" JNull fresh (Demo.chatOpen "c1" []))
      as [_ Hnull].
    + exists "null". split; [reflexivity|]. split; [discriminate|reflexivity].
    + destruct (Hnull eq_refl) as (data & Hf & _ & Htext).
      rewrite Htext. inversion Hf. reflexivity.
Defined.

Lemma X8_witness :
  let start := JObj [("type", JStr "tool_start"); ("name", JStr "search")] in
  let source := JObj [("type", JStr "source"); ("name", JStr "search");
                      ("citations", JArr [JStr "docA"])] in
  (let '(_, l1, s1) := dispatch start fresh (Demo.chatOpen "c1" []) in
   dispatch source l1 s1)
  = (let '(_, l1, s1) := dispatch source fresh (Demo.chatOpen "c1" []) in
     dispatch start l1 s1)
  /\ activeTools
       (snd (let '(_, l1, s1) := dispatch source fresh (Demo.chatOpen "c1" []) in
             dispatch start l1 s1))
     = [ToolCall.mk (JStr "search") started (Some ["docA"])].
Proof.
  intros start source. split; [|reflexivity].
  apply (@X8_source_and_tool_start_commute start source "search" fresh
           (Demo.chatOpen "c1" [])); try reflexivity.
  discriminate.
Defined.


(** Three triggers, a switch of chat and a message in between: one
    request. *)
Lemma X12_witness :
  let x := Session.quiet (Demo.chatOpen "A" [Demo.m 5]) in
  let labs :=
    [Session.LoadMore; Session.LoadMore; Session.Switch "B";
     Session.SwitchAnswer 0 (Ok (mkPage [Demo.m 20] (Some true)));
     Session.LoadMore;
     Session.Send "hi" [] (Demo.clock 1); Session.SendAnswer Stream;
     Session.StreamEnd 0 (Demo.clock 2)] in
  exists x',
    Session.run Demo.parse Demo.encode labs x = Some x'
    /\ map chat (Session.loading x') = ["A"]
    /\ (length (Session.loading x') <= 1)%nat
    /\ isLoadingMore (Session.store x') = true.
Proof.
  intros x labs.
  destruct (Session.run Demo.parse Demo.encode labs x) as [x'|] eqn:Hrun;
    [|discriminate Hrun].
  exists x'.
  destruct (@X12_one_page_request_at_a_time Demo.parse Demo.encode labs x x'
              eq_refl Hrun) as (Hlen & Hbusy & _).
  assert (Hload : map chat (Session.loading x') = ["A"])
    by (vm_compute in Hrun; injection Hrun as <-; reflexivity).
  repeat split; auto.
  apply Hbusy. intros Hnone. rewrite Hnone in Hload. discriminate.
Defined.

Lemma X14_witness :
  let s := set_isLoadingMore true (Demo.chatOpen "A" [Demo.m 5]) in
  let s' := setActiveChat_resume (Ok (mkPage [Demo.m 20] (Some true)))
                                 (setActiveChat_begin "B" s) in
  hasMoreMessages s' = true
  /\ activeChatId s' = Some "B"
  /\ loadMoreMessages_begin Demo.encode s' = (s', None).
Proof.
  intros s s'.
  destruct (@X14_a_switch_keeps_pagination_blocked Demo.encode "B"
              (Ok (mkPage [Demo.m 20] (Some true))) s eq_refl)
    as (_ & Hactive & Hnone).
  split; [reflexivity|]. split; [exact Hactive|exact Hnone].
Defined.

Lemma X16_witness :
  let old := Chat.mk "c1" (JStr "Invoices") "1" "1" in
  let new := Chat.mk "c2" (JStr "New Chat") "2" "2" in
  let s := set_chats [old] (Demo.chatOpen "c1" [Demo.m 5]) in
  let s' := Chats.deleteChat_resume "c2" (createChat_resume new s) in
  chats s' = [old] /\ activeChatId s' = None /\ messages s' = [].
Proof.
  intros old new s.
  apply (@X16_create_then_delete new s).
  simpl. intros [H | []]. discriminate H.
Defined.

(** A line that ended in CR LF. *)
Lemma X20_witness :
  frameOf (Demo.line (Demo.token "a") ++ String (ascii_of_nat 13) "")
  = Some (Demo.token "a").
Proof.
  destruct (@X20_white_space_around_a_line Demo.parse
              (Demo.line (Demo.token "a")) (ascii_of_nat 13) fresh
              (Demo.chatOpen "c1" []) eq_refl) as (_ & Hbehind & _).
  change (Demo.line (Demo.token "a") ++ String (ascii_of_nat 13) "")
    with ((Demo.line (Demo.token "a")) ++ String (ascii_of_nat 13) "").
  rewrite Hbehind. reflexivity.
Defined.


Lemma X22_witness :
  let s := Demo.chatOpen "c1" [Demo.m 5] in
  let s1 := set_isLoadingMore true s in
  loadMoreMessages_resume Threw s1 = s
  /\ loadMoreMessages_begin Demo.encode (loadMoreMessages_resume Threw s1)
     = (s1, Some (mkRequest "c1" "?before=m5&limit=10")).
Proof.
  intros s s1.
  apply (@X22_a_failed_page_fetch_leaves_no_trace Demo.encode s s1
           (mkRequest "c1" "?before=m5&limit=10") Threw).
  - reflexivity.
  - right; reflexivity.
Defined.

(** * Switching the chat while something is in flight *)

Section Switching.

Import Session.

Variable JSON_parse : string -> option JValue.
Variable encodeURIComponent : string -> string.

(** X24. A stream that is still being read when the chat is switched is
    not cancelled and goes on writing into the store: what it streams
    after the switch is the streamed text of the new chat, and when it
    closes its assistant message is appended to the new window (alone,
    if the first page has not arrived) and the refresh is asked for the
    new chat. *)
Theorem X24_a_turn_that_outlives_a_switch
  (id : string) (chunks : list string) (l : Locals) (k : Clock)
  (s : ChatState) :
  id <> "" ->
  let switched := setActiveChat_begin id s in
  let streamed := snd (readLoop JSON_parse chunks l switched) in
  let finished := fst (sendMessage_finish k streamed) in
  activeChatId finished = Some id
  /\ snd (sendMessage_finish k streamed) = Some id
  /\ exists aiMsg,
       messages finished = [aiMsg]
       /\ Message.role aiMsg = assistant
       /\ Message.content aiMsg = streamingMessage streamed.
Proof.
  intros Hid switched streamed finished.
  destruct (stream_sessionKept JSON_parse chunks l switched) as (Hm & Ha & _).
  fold streamed in Hm, Ha.
  subst finished. unfold sendMessage_finish. simpl. rewrite Hm, Ha. simpl.
  apply String.eqb_neq in Hid. rewrite Hid.
  split; [reflexivity|]. split; [reflexivity|].
  eexists. repeat split.
Qed.

(** X25. The first page of a chat is written whatever chat is active
    when it arrives.  When two chats are selected one after the other
    and the answer for the first arrives last, the second chat is
    active but the window and [hasMoreMessages] are those of the first. *)
Theorem X25_the_last_first_page_wins
  (a b : string) (pa pb : Page) (x : Session.t) :
  switching x = [] ->
  exists x',
    run JSON_parse encodeURIComponent
        [Switch a; Switch b; SwitchAnswer 1 (Ok pb); SwitchAnswer 0 (Ok pa)] x
    = Some x'
    /\ activeChatId (store x') = Some b
    /\ messages (store x') = uniqueMessages pa
    /\ hasMoreMessages (store x') = hasMoreOf pa
    /\ switching x' = [].
Proof.
  intros Hnone. simpl. rewrite Hnone. simpl.
  eexists. split; [reflexivity|]. repeat split.
Qed.

End Switching.

Lemma X24_witness :
  let s := Demo.chatOpen "A" [Demo.m 5] in
  let switched := setActiveChat_begin "B" s in
  let streamed :=
    snd (readLoop Demo.parse [Demo.dataLine (Demo.token "late")] fresh switched) in
  map Message.content (messages (fst (sendMessage_finish (Demo.clock 2) streamed)))
  = ["late"]
  /\ snd (sendMessage_finish (Demo.clock 2) streamed) = Some "B".
Proof.
  intros s switched streamed.
  destruct (@X24_a_turn_that_outlives_a_switch Demo.parse "B"
              [Demo.dataLine (Demo.token "late")] fresh (Demo.clock 2) s)
    as (_ & Hrefresh & aiMsg & Hwin & _ & Hcontent); [discriminate|].
  split; [|exact Hrefresh].
  fold switched streamed in Hwin, Hcontent.
  rewrite Hwin. simpl. rewrite Hcontent. reflexivity.
Defined.

Lemma X25_witness :
  exists x',
    Session.run Demo.parse Demo.encode
      [Session.Switch "A"; Session.Switch "B";
       Session.SwitchAnswer 1 (Ok (mkPage [Demo.m 20] None));
       Session.SwitchAnswer 0 (Ok (mkPage [Demo.m 5; Demo.m 6] None))]
      (Session.quiet initial)
    = Some x'
    /\ activeChatId (Session.store x') = Some "B"
    /\ map Message.id (messages (Session.store x')) = ["m5"; "m6"].
Proof.
  destruct (@X25_the_last_first_page_wins Demo.parse Demo.encode "A" "B"
              (mkPage [Demo.m 5; Demo.m 6] None) (mkPage [Demo.m 20] None)
              (Session.quiet initial) eq_refl)
    as (x' & Hrun & Hactive & Hwin & _).
  exists x'. split; [exact Hrun|]. split; [exact Hactive|].
  rewrite Hwin. reflexivity.
Defined.
